(* ===== verification/_CoqProject ===== *)
-Q . S2P
Prelude.v
JsBuiltins.v
JsNumber.v
Format.v
Timers.v
Laps.v
Component.v
Precision.v
Invariants.v
Behaviour.v
Refinement.v
Page.v
