(* ===== verification/Prelude.v ===== *)
(** * A verification development of the stopwatch widget [src/src/Watch.tsx]

    ** The program

    [src/src/Watch.tsx] is one React function component, [Stopwatch], and
    one pure helper, [formatTime].  The component keeps four hooks:
    [time] (elapsed milliseconds), [running], [intervalId] (the handle of
    the browser interval, [number | null]) and [laps] (an array of
    [{time, difference}]).  Five click handlers ([handleStart],
    [handlePause], [handleStop], [handleReset], [handleLap]) enqueue state
    updates; one [useEffect] keyed on [running] starts a 10 ms
    [setInterval] whose callback adds 10 to [time], or clears the interval
    when [running] becomes false; its cleanup clears the [intervalId] its
    render saw.  Rendering shows [formatTime time], the five buttons with
    their [disabled] flags, and the lap rows produced by
    [laps.reverse().map(...)] — which reverses the state array in place.

    The parts interact as follows: a click runs a handler, which enqueues
    updates; React applies the queue, re-renders (mutating [laps]), then
    runs the effect if [running] changed; the effect talks to the browser
    timer table, and [setIntervalId] triggers one more render.  A timer
    tick enqueues [prev => prev + 10] and re-renders.

    ** The files

    - [Prelude] (this file): the [js_scope] notations, the [sw] and [swr]
      hint databases, the shared tactics and the lemmas on strings, lists
      and [Z] division that the other files use.
    - [JsBuiltins]: the ECMAScript built-ins the source calls, on the
      values it calls them with: [Number.prototype.toString] on integers
      ([number_toString]), [String.prototype.padStart] ([padStart]) and
      [String.prototype.substring] ([js_substring]); plus a decimal parser
      used to state round trips.
    - [JsNumber]: the number operators of [formatTime] on exact rationals:
      [/] ([js_div]), [%] ([js_mod], the truncated remainder) and
      [Math.floor] ([math_floor]), with their [Proper] instances and the
      lemmas that bring them back to [Z.div], [Z.modulo] and [Z.rem].
    - [Format]: [formatTime] (Watch.tsx lines 113-129), expression by
      expression; its functional characterisation on non-negative inputs
      (truncation, not rounding, of the hundredths), the length of its
      output, a round trip through a parser, and its output on the
      negative numbers the lap list can hold.
    - [Timers]: the browser timer table as an interface (a [Class] of
      [setInterval]/[clearInterval] with the laws of the HTML standard and
      the non-reuse of ids all browsers implement) and a counter-based
      instance on [gset].
    - [Laps]: the [Lap] record, the arithmetic of [handleLap] (lines
      48-55) and the row rendering of lines 96-105.
    - [Component]: the React runtime of one [Stopwatch] instance, written
      against the [Timers] interface: hooks record, update queue, the five
      handlers, [render] with its in-place reversal, the [useEffect] body
      and cleanup, mounting, unmounting and ticks, as an executable
      [dispatch] on events, [run] on event lists and a reachability
      relation; and the shape of a commit (keep, stop, start).
    - [Invariants]: the invariant [inv] of a mounted fiber (the effect's
      dependency, the time a multiple of 10, the screen, the live interval
      exactly the one in [intervalId] while running) and its preservation
      by every event, hence by every reachable fiber; the timer theorems
      of spec section 5: a single interval, none after Pause or Stop, and
      the interval that unmounting while running leaves live for ever.
    - [Behaviour]: what each click and tick does to a reachable fiber,
      read through the observables [elapsed], [is_running] and
      [lap_list] of spec section 3, and the two runs whose lap lists
      differ by one tick.
    - [Precision]: the tick [prevTime + 10] on binary64 numbers (round to
      nearest, ties to even): equal to the [Z] model up to 2^53 ms,
      never exactly 10 from 2^54 ms, and nothing from 2^57 ms on.
    - [Page]: several instances on one page sharing the browser's timer
      table.  Each interval id is owned by the instance whose effect
      created it; [View] (one instance's view of the table) is a
      [TimerLaws] instance, so each instance runs the [Component] model
      unchanged.  Events of one instance leave the others and their
      timers untouched; every live interval of the page belongs to an
      instance last seen running; the interval of an instance unmounted
      while running stays live whatever the page does next.
    - [Refinement]: the abstract machine of spec section 4.1 ([Spec]) and
      a simulation in both directions between it and the component from a
      fresh mount, on the elapsed time, the running flag and the number of
      laps; the lap contents are where they part.

    ** The theorems

    Safety of the timer (single interval, none after Pause or Stop,
    disabled buttons do nothing); the leak on unmount, which no later
    event on the page repairs; the refinement of spec 4.1 in both
    directions; the isolation of instances on a page and the intervals a
    page runs; the effect of every event, the lap arithmetic and its
    dependence on the parity of renders; invariants of every reachable
    state (time and laps in whole hundredths, the display exact); the
    precision of the tick on JavaScript numbers; and [formatTime]:
    fields, length, round trip and negative inputs.

    ** Modelling choices

    - JavaScript numbers are modelled as [Z] where they are integers
      (every value the component keeps: sums of 10 and their
      differences), and as exact rationals [Q] where [formatTime] divides.
      For integers below 2^53 the binary64 quotient [t/1000] is within a
      rounding error far smaller than 1/1000 of the exact one, so [% 60]
      and [Math.floor] give the same integers as on [Q] (an argument, not
      a theorem of the development).  The one place where the number
      format shows is the tick [prevTime + 10], which [Precision] models
      on binary64: exact up to 2^53, rounded above, stuck from 2^57.
    - Interval ids are [positive]: the HTML standard makes them greater
      than zero, so [if (intervalId)] is [intervalId <> null].
    - React: every batch of updates is committed by exactly one render
      before the next event (React 18 batches the updates of one event and
      renders discrete events synchronously); every update the component
      issues changes its hook ([setLaps] always passes a new array, [time]
      and ids change), so no render is skipped.  StrictMode double
      rendering is not modelled (the source does not enable it).
    - Time is abstracted to events: a [Tick id] event is one firing of a
      live interval; the browser never fires a cleared one, and [dispatch]
      refuses it.
    - Fuel: the decimal printer recurses with fuel [1 + log2 n], enough
      for the [1 + floor(log10 n)] digits of [n]; the post-commit loop
      of the component runs with fuel 2, which is proved enough (a third
      round never has updates to apply).

    ** Not modelled
    Styling and layout (class names), the DOM and the [key] props, which
    carry no behaviour; the 10 ms period of the interval as wall-clock
    time (only the order of ticks and clicks is modelled); React's
    concurrent rendering and StrictMode; the binary64 format outside the
    tick: [formatTime] and the lap arithmetic on numbers above 2^53
    (285 000 years of ticks), Infinity beyond 2^1024 and [toString]'s
    exponent notation from 10^21, which no reachable value gets near.
    The import line, the closing braces and [export default] carry no
    behaviour.
*)

From Stdlib Require Import ZArith List String Ascii Lia.
Import ListNotations.

(** ** Notations *)

Declare Scope js_scope.
Delimit Scope js_scope with js.

(** String concatenation as JavaScript template literals and [+] perform it. *)
Notation "a +s b" := (String.append a b) (at level 60, right associativity) : js_scope.
(** A one-character string. *)
Notation "'chr' c" := (String c EmptyString) (at level 1, c at level 0) : js_scope.

Open Scope js_scope.

(** ** Hint database and tactics *)

Create HintDb sw discriminated.
Create Rewrite HintDb swr.

(** Division and remainder by constants, then linear arithmetic. *)
Ltac divmod_lia := Z.div_mod_to_equations; lia.

(** Split boolean comparisons on [Z] into the two cases with their facts. *)
Ltac case_zcmp :=
  repeat match goal with
  | |- context [Z.ltb ?a ?b] => destruct (Z.ltb_spec a b)
  | |- context [Z.leb ?a ?b] => destruct (Z.leb_spec a b)
  | |- context [Z.eqb ?a ?b] => destruct (Z.eqb_spec a b)
  end.

(** ** Strings *)

Lemma string_app_assoc (a b c : string) : (a +s b) +s c = a +s (b +s c).
Proof. induction a as [|x a IH]; simpl; [reflexivity | now rewrite IH]. Qed.

Lemma string_app_nil_r (a : string) : a +s EmptyString = a.
Proof. induction a as [|x a IH]; simpl; [reflexivity | now rewrite IH]. Qed.

Lemma string_length_app (a b : string) :
  String.length (a +s b) = String.length a + String.length b.
Proof. induction a as [|x a IH]; simpl; [reflexivity | now rewrite IH]. Qed.

#[export] Hint Rewrite string_app_assoc string_app_nil_r string_length_app : swr.

(** Taking the first [length a] characters of [a ++ b] gives [a]. *)
Lemma substring_prefix (a b : string) :
  String.substring 0 (String.length a) (a +s b) = a.
Proof.
  induction a as [|x a IH]; simpl; [now destruct b | now rewrite IH].
Qed.

Lemma substring_whole (a : string) n :
  String.length a <= n -> String.substring 0 n a = a.
Proof.
  revert n; induction a as [|x a IH]; intros [|n] Hn; simpl in *;
    try reflexivity; try lia.
  rewrite IH; [reflexivity | lia].
Qed.

(** ** Lists *)

Lemma last_app_single {A} (l : list A) (x d : A) : last (l ++ [x]) d = x.
Proof.
  induction l as [|y l IH]; [reflexivity|].
  simpl. rewrite IH. now destruct l.
Qed.

#[export] Hint Rewrite @last_app_single @length_rev @length_app @rev_involutive : swr.

(** ** Integer division *)

(** Nested floor divisions by positive constants compose. *)
Lemma Zdiv_div_pos (t a b : Z) : (0 < a -> 0 < b -> t / a / b = t / (a * b))%Z.
Proof. intros. now rewrite Z.div_div by lia. Qed.
