(* ===== verification/JsBuiltins.v ===== *)
(** * The ECMAScript built-ins called by [formatTime] and the lap rows

    [Number.prototype.toString] (radix 10) on integral numbers,
    [String.prototype.padStart] and [String.prototype.substring], following
    the ECMAScript algorithms on the arguments the source passes, and a
    decimal parser ([parse_digits]) used to state round trips.  The main
    results: the printer's decomposition into leading digits and last digit
    ([nat_digits_ge10]), the shape of [padStart k "0"] on numbers of at most
    [k] digits ([pad2_digits], [pad3_digits]) and the parser's inverse
    property ([parse_padStart]). *)

From Stdlib Require Import ZArith List String Ascii Lia.
From S2P Require Import Prelude.
Open Scope Z_scope.

(** ** Number.prototype.toString on integers *)

(** The code unit of a decimal digit [0 <= d <= 9]. *)
Definition digit_char (d : Z) : ascii := ascii_of_nat (48 + Z.to_nat d).

(** Digits of [n], most significant first, in front of [acc].  The fuel
    bounds the number of digits. *)
Fixpoint digits_aux (fuel : nat) (n : Z) (acc : string) : string :=
  match fuel with
  | O => acc
  | S f =>
      let acc' := String (digit_char (n mod 10)) acc in
      if n <? 10 then acc' else digits_aux f (n / 10) acc'
  end.

(** Decimal digits of [n >= 0] without leading zeros; [1 + log2 n] bounds
    their number. *)
Definition nat_digits (n : Z) : string :=
  digits_aux (S (Z.to_nat (Z.log2 n))) n EmptyString.

(** [Number.prototype.toString()] on an integral number: a minus sign and
    the digits of the magnitude. *)
Definition number_toString (z : Z) : string :=
  if z <? 0 then "-" +s nat_digits (- z) else nat_digits z.

(** ** String.prototype.padStart and String.prototype.substring *)

Fixpoint repeat_string (k : nat) (p : string) : string :=
  match k with
  | O => EmptyString
  | S k' => p +s repeat_string k' p
  end.

(** [s.padStart(maxLength, fillString)]: [s] unchanged when it is long
    enough or the filler is empty, otherwise the filler repeated and cut to
    the missing length, in front of [s]. *)
Definition padStart (maxLength : nat) (fillString s : string) : string :=
  let len := String.length s in
  if (maxLength <=? len)%nat then s
  else if String.eqb fillString EmptyString then s
  else
    let fillLen := (maxLength - len)%nat in
    String.substring 0 fillLen (repeat_string fillLen fillString) +s s.

(** [s.substring(start, end)]: both bounds clamped to the length, then
    swapped if needed. *)
Definition js_substring (start end_ : nat) (s : string) : string :=
  let len := String.length s in
  let a := Nat.min start len in
  let b := Nat.min end_ len in
  String.substring (Nat.min a b) (Nat.max a b - Nat.min a b) s.

(** ** A decimal parser *)

Definition digit_value (c : ascii) : option Z :=
  let n := nat_of_ascii c in
  if ((48 <=? n)%nat && (n <=? 57)%nat)%bool then Some (Z.of_nat n - 48) else None.

Fixpoint parse_digits_aux (s : string) (acc : Z) : option Z :=
  match s with
  | EmptyString => Some acc
  | String c s' =>
      match digit_value c with
      | Some d => parse_digits_aux s' (acc * 10 + d)
      | None => None
      end
  end.

(** A non-empty string of decimal digits, read as a number. *)
Definition parse_digits (s : string) : option Z :=
  match s with
  | EmptyString => None
  | _ => parse_digits_aux s 0
  end.

(** ** The printer *)

Lemma digits_aux_acc f n acc :
  digits_aux f n acc = digits_aux f n EmptyString +s acc.
Proof.
  revert n acc; induction f as [|f IH]; intros n acc; [reflexivity|].
  simpl. destruct (n <? 10); [reflexivity|].
  rewrite IH, (IH _ (String _ EmptyString)). now autorewrite with swr.
Qed.

Lemma log2_div10_lt n : 10 <= n -> Z.log2 (n / 10) < Z.log2 n.
Proof.
  intros Hn.
  assert (Z.log2 (n / 10) <= Z.log2 (Z.shiftr n 1)).
  { apply Z.log2_le_mono. rewrite Z.shiftr_div_pow2 by lia. divmod_lia. }
  rewrite Z.log2_shiftr in H by lia.
  pose proof (Z.log2_pos n). lia.
Qed.

(** Any fuel larger than [log2 n] prints the same digits. *)
Lemma digits_aux_fuel f1 f2 n acc :
  0 <= n -> Z.log2 n < Z.of_nat f1 -> Z.log2 n < Z.of_nat f2 ->
  digits_aux f1 n acc = digits_aux f2 n acc.
Proof.
  revert f2 n acc; induction f1 as [|f1 IH]; intros [|f2] n acc Hn H1 H2;
    try (pose proof (Z.log2_nonneg n); lia).
  simpl. destruct (Z.ltb_spec n 10); [reflexivity|].
  pose proof (log2_div10_lt n H).
  apply IH; [divmod_lia | lia | lia].
Qed.

Lemma nat_digits_lt10 n : 0 <= n < 10 -> nat_digits n = chr (digit_char n).
Proof.
  intros Hn. unfold nat_digits. simpl.
  destruct (Z.ltb_spec n 10); [|lia]. now rewrite Z.mod_small.
Qed.

(** The printed digits of [n >= 10] are those of [n / 10] followed by the
    last digit. *)
Lemma nat_digits_ge10 n :
  10 <= n -> nat_digits n = nat_digits (n / 10) +s chr (digit_char (n mod 10)).
Proof.
  intros Hn. unfold nat_digits at 1. simpl.
  destruct (Z.ltb_spec n 10); [lia|].
  rewrite digits_aux_acc. f_equal. unfold nat_digits.
  pose proof (log2_div10_lt n Hn). pose proof (Z.log2_nonneg (n / 10)).
  apply digits_aux_fuel; [divmod_lia | lia | lia].
Qed.

Lemma number_toString_nonneg n : 0 <= n -> number_toString n = nat_digits n.
Proof. intros. unfold number_toString. case_zcmp; [lia | reflexivity]. Qed.

(** Induction on the decimal representation: the numbers below 10, then
    a number from its leading digits. *)
Lemma digits_ind (P : Z -> Prop) :
  (forall n, 0 <= n < 10 -> P n) ->
  (forall n, 10 <= n -> P (n / 10) -> P n) ->
  forall n, 0 <= n -> P n.
Proof.
  intros Hsmall Hstep n Hn.
  remember (Z.to_nat n) as k eqn:Hk. revert n Hn Hk.
  induction k as [k IH] using lt_wf_ind; intros n Hn Hk.
  destruct (Z.ltb_spec n 10); [now apply Hsmall|].
  apply Hstep; [lia|]. apply (IH (Z.to_nat (n / 10))); [divmod_lia | divmod_lia | reflexivity].
Qed.

(** The number of digits: [n < 10 ^ k] has at most [k] digits. *)
Lemma nat_digits_length n (k : nat) :
  0 <= n < 10 ^ Z.of_nat (S k) -> (String.length (nat_digits n) <= S k)%nat.
Proof.
  revert n; induction k as [|k IH]; intros n Hn.
  - rewrite nat_digits_lt10 by (simpl in Hn; lia). reflexivity.
  - destruct (Z.ltb_spec n 10).
    + rewrite nat_digits_lt10 by lia. simpl. lia.
    + rewrite nat_digits_ge10 by lia. autorewrite with swr. simpl.
      enough (String.length (nat_digits (n / 10)) <= S k)%nat by lia.
      apply IH. rewrite Nat2Z.inj_succ, Z.pow_succ_r in Hn by lia.
      divmod_lia.
Qed.

Lemma nat_digits_nonempty n : 0 <= n -> (1 <= String.length (nat_digits n))%nat.
Proof.
  revert n. apply (digits_ind (fun n => 1 <= String.length (nat_digits n))%nat); intros m Hm.
  - rewrite nat_digits_lt10 by lia. simpl. lia.
  - intros IH. rewrite nat_digits_ge10 by lia. autorewrite with swr. lia.
Qed.

(** ** padStart with ["0"] *)

Lemma padStart_long k s :
  (k <= String.length s)%nat -> padStart k "0" s = s.
Proof.
  intros Hk. unfold padStart. now destruct (Nat.leb_spec k (String.length s)); [|lia].
Qed.

Lemma padStart_short k s :
  (String.length s < k)%nat ->
  padStart k "0" s = repeat_string (k - String.length s) "0" +s s.
Proof.
  intros Hk. unfold padStart.
  destruct (Nat.leb_spec k (String.length s)); [lia|]. simpl.
  f_equal. apply substring_whole.
  generalize (k - String.length s)%nat. intros m.
  induction m as [|m IH]; simpl; lia.
Qed.

Lemma repeat_string_length k p :
  String.length (repeat_string k p) = (k * String.length p)%nat.
Proof. induction k as [|k IH]; cbn [repeat_string]; [reflexivity|]. now rewrite string_length_app, IH. Qed.

(** A zero-padded string is as long as the target or the string, whichever
    is longer. *)
Lemma padStart_length k s : String.length (padStart k "0" s) = Nat.max k (String.length s).
Proof.
  destruct (Nat.leb_spec k (String.length s)) as [Hk|Hk].
  - rewrite padStart_long by exact Hk. lia.
  - rewrite padStart_short, string_length_app, repeat_string_length by exact Hk. cbn. lia.
Qed.

Lemma digit_char_0 : digit_char 0 = "0"%char.
Proof. reflexivity. Qed.

(** Two-digit padding of a number below 100 is its tens then its units. *)
Lemma pad2_digits n :
  0 <= n < 100 ->
  padStart 2 "0" (number_toString n)
  = chr (digit_char (n / 10)) +s chr (digit_char (n mod 10)).
Proof.
  intros Hn. rewrite number_toString_nonneg by lia.
  destruct (Z.ltb_spec n 10).
  - rewrite nat_digits_lt10 by lia. rewrite padStart_short by (simpl; lia).
    rewrite Z.div_small, Z.mod_small by lia. reflexivity.
  - rewrite nat_digits_ge10 by lia. rewrite (nat_digits_lt10 (n / 10)) by divmod_lia.
    now rewrite padStart_long.
Qed.

(** Three-digit padding of a number below 1000. *)
Lemma pad3_digits n :
  0 <= n < 1000 ->
  padStart 3 "0" (number_toString n)
  = chr (digit_char (n / 100)) +s chr (digit_char (n / 10 mod 10))
      +s chr (digit_char (n mod 10)).
Proof.
  intros Hn. rewrite number_toString_nonneg by lia.
  destruct (Z.ltb_spec n 10); [|destruct (Z.ltb_spec n 100)].
  - rewrite nat_digits_lt10 by lia. rewrite padStart_short by (simpl; lia).
    rewrite (Z.div_small n 100), (Z.div_small n 10), (Z.mod_small n) by lia.
    reflexivity.
  - rewrite nat_digits_ge10, nat_digits_lt10 by divmod_lia.
    rewrite padStart_short by (simpl; lia).
    rewrite (Z.div_small n 100), (Z.mod_small (n / 10)) by divmod_lia.
    reflexivity.
  - rewrite nat_digits_ge10, (nat_digits_ge10 (n / 10)), nat_digits_lt10 by divmod_lia.
    rewrite padStart_long by (simpl; lia).
    rewrite Zdiv_div_pos by lia. reflexivity.
Qed.

(** ** The parser *)

Lemma digit_value_char d : 0 <= d < 10 -> digit_value (digit_char d) = Some d.
Proof.
  intros Hd.
  assert (d = 0 \/ d = 1 \/ d = 2 \/ d = 3 \/ d = 4 \/ d = 5 \/ d = 6 \/ d = 7
          \/ d = 8 \/ d = 9) as Hc by lia.
  repeat destruct Hc as [-> | Hc]; subst; reflexivity.
Qed.

Lemma parse_digits_aux_app a b acc :
  parse_digits_aux (a +s b) acc =
  match parse_digits_aux a acc with
  | Some v => parse_digits_aux b v
  | None => None
  end.
Proof.
  revert acc; induction a as [|c a IH]; intros acc; simpl; [reflexivity|].
  destruct (digit_value c); [apply IH | reflexivity].
Qed.

(** Reading the printed digits back appends [n] to the accumulator. *)
Lemma parse_nat_digits n acc :
  0 <= n ->
  parse_digits_aux (nat_digits n) acc
  = Some (acc * 10 ^ Z.of_nat (String.length (nat_digits n)) + n).
Proof.
  intros Hn. revert acc. pattern n. revert n Hn.
  apply digits_ind; intros n Hn.
  - intros acc. rewrite nat_digits_lt10 by lia. cbn [parse_digits_aux String.length].
    rewrite digit_value_char by lia. f_equal; try lia.
  - intros IH acc. rewrite nat_digits_ge10 by lia.
    rewrite parse_digits_aux_app, IH. cbn [parse_digits_aux].
    rewrite digit_value_char by divmod_lia.
    f_equal. rewrite string_length_app. cbn [String.length].
    rewrite Nat2Z.inj_add, Z.pow_add_r by lia. change (10 ^ Z.of_nat 1) with 10.
    divmod_lia.
Qed.

Lemma parse_zeros m acc :
  parse_digits_aux (repeat_string m "0") acc = Some (acc * 10 ^ Z.of_nat m).
Proof.
  revert acc; induction m as [|m IH]; intros acc; cbn [repeat_string];
    [change (10 ^ Z.of_nat 0) with 1; now rewrite Z.mul_1_r|].
  cbn [String.append parse_digits_aux].
  replace (digit_value "0") with (Some 0) by reflexivity.
  rewrite IH. f_equal. rewrite Nat2Z.inj_succ, Z.pow_succ_r by lia. lia.
Qed.

Lemma parse_digits_nonempty s :
  (1 <= String.length s)%nat -> parse_digits s = parse_digits_aux s 0.
Proof. destruct s; [simpl; lia | reflexivity]. Qed.

(** Zero-padded decimal output parses back to the number. *)
Lemma parse_padStart k n :
  0 <= n -> parse_digits (padStart k "0" (number_toString n)) = Some n.
Proof.
  intros Hn. rewrite number_toString_nonneg by lia.
  pose proof (nat_digits_nonempty n Hn).
  destruct (Nat.leb_spec k (String.length (nat_digits n))).
  - rewrite padStart_long, parse_digits_nonempty, parse_nat_digits by lia.
    f_equal; lia.
  - rewrite padStart_short by lia.
    rewrite parse_digits_nonempty by (rewrite string_length_app; lia).
    rewrite parse_digits_aux_app, parse_zeros, parse_nat_digits by lia.
    f_equal; lia.
Qed.

(** ** Strings of digits *)

(** Every character is a decimal digit. *)
Fixpoint digits_only (s : string) : bool :=
  match s with
  | EmptyString => true
  | String c s' =>
      match digit_value c with
      | Some _ => digits_only s'
      | None => false
      end
  end.

Lemma digits_only_app a b :
  digits_only (a +s b) = (digits_only a && digits_only b)%bool.
Proof.
  induction a as [|c a IH]; [reflexivity|]. cbn [String.append digits_only].
  now destruct (digit_value c).
Qed.

Lemma digits_only_char d : 0 <= d < 10 -> digits_only (chr (digit_char d)) = true.
Proof. intros. cbn [digits_only]. now rewrite digit_value_char. Qed.

Lemma digits_only_nat_digits n : 0 <= n -> digits_only (nat_digits n) = true.
Proof.
  revert n. apply (digits_ind (fun n => digits_only (nat_digits n) = true)); intros m Hm.
  - rewrite nat_digits_lt10 by lia. now apply digits_only_char.
  - intros IH. rewrite nat_digits_ge10, digits_only_app, IH by lia.
    apply digits_only_char. divmod_lia.
Qed.

Lemma digits_only_zeros m : digits_only (repeat_string m "0") = true.
Proof.
  induction m as [|m IH]; [reflexivity|].
  cbn [repeat_string String.append]. exact IH.
Qed.

(** Zero-padded output of a non-negative number is made of digits only. *)
Lemma digits_only_padStart k n :
  0 <= n -> digits_only (padStart k "0" (number_toString n)) = true.
Proof.
  intros Hn. rewrite number_toString_nonneg by lia.
  destruct (Nat.leb_spec k (String.length (nat_digits n))).
  - rewrite padStart_long by lia. now apply digits_only_nat_digits.
  - rewrite padStart_short, digits_only_app, digits_only_zeros by lia.
    now apply digits_only_nat_digits.
Qed.

(** A negative number prints as a minus sign and at least one digit. *)
Lemma number_toString_neg n :
  n < 0 -> exists s, number_toString n = "-" +s s /\ (1 <= String.length s)%nat.
Proof.
  intros Hn. unfold number_toString. case_zcmp; [|lia].
  eexists; split; [reflexivity|]. apply nat_digits_nonempty. lia.
Qed.
