(* ===== verification/JsNumber.v ===== *)
(** * JavaScript number arithmetic on the values of [formatTime]

    The source computes [Math.floor((time / 1000) % 60)]: [/] is the real
    quotient, [%] the remainder of a quotient truncated toward zero (the
    result has the sign of the dividend), [Math.floor] rounds down.  On the
    integral inputs of the source these are exact rationals, so they are
    modelled on [Q] ([js_div], [js_mod], [js_trunc], [math_floor]), with
    [Proper] instances for [Qeq], and proved equal to integer formulas
    ([js_floor_mod_div], [js_floor_div]).  The double
    rounding of [t / 1000] never crosses an integer below 2^53, which the
    header of [Prelude] records as the modelling assumption. *)

From Stdlib Require Import ZArith QArith Qround Lia Morphisms.
From S2P Require Import Prelude.

(** [a / b] on numbers with integral operands: the exact quotient. *)
Definition js_div (a b : Z) : Q := (inject_Z a / inject_Z b)%Q.

(** Truncation toward zero, as [Number::remainder] uses it. *)
Definition js_trunc (x : Q) : Z :=
  if Qlt_le_dec x 0 then Qceiling x else Qfloor x.

(** [x % y] on numbers: [x - y * trunc(x / y)]. *)
Definition js_mod (x y : Q) : Q := (x - y * inject_Z (js_trunc (x / y)))%Q.

(** [a % b] on integral numbers, the form it takes in [time % 1000]. *)
Definition js_rem (a b : Z) : Z := Z.rem a b.

(** [Math.floor]. *)
Definition math_floor (x : Q) : Z := Qfloor x.

(** ** Compatibility with [Qeq] *)

#[export] Instance js_trunc_Proper : Proper (Qeq ==> eq) js_trunc.
Proof.
  intros x y Hxy. unfold js_trunc.
  destruct (Qlt_le_dec x 0) as [Hx|Hx], (Qlt_le_dec y 0) as [Hy|Hy].
  - now apply Qceiling_comp.
  - rewrite Hxy in Hx. exfalso. now apply (Qlt_not_le _ _ Hx).
  - rewrite Hxy in Hx. exfalso. now apply (Qlt_not_le _ _ Hy).
  - now apply Qfloor_comp.
Qed.

#[export] Instance js_mod_Proper : Proper (Qeq ==> Qeq ==> Qeq) js_mod.
Proof.
  intros x x' Hx y y' Hy. unfold js_mod.
  apply Qminus_comp; [exact Hx|]. apply Qmult_comp; [exact Hy|].
  now rewrite (js_trunc_Proper _ _ (Qdiv_comp _ _ Hx _ _ Hy)).
Qed.

#[export] Instance math_floor_Proper : Proper (Qeq ==> eq) math_floor.
Proof. exact Qfloor_comp. Qed.

(** ** Floor and truncation of a fraction *)

(** [Qfloor x] is the integer [n] with [n <= x < n + 1]. *)
Lemma Qfloor_unique (n : Z) (x : Q) :
  (inject_Z n <= x)%Q -> (x < inject_Z (n + 1))%Q -> Qfloor x = n.
Proof.
  intros Hlo Hhi.
  pose proof (Qfloor_resp_le _ _ Hlo) as H1. rewrite Qfloor_Z in H1.
  pose proof (Qfloor_le x) as H2.
  assert (inject_Z (Qfloor x) < inject_Z (n + 1))%Q as H3 by (eapply Qle_lt_trans; eauto).
  rewrite <- Zlt_Qlt in H3. lia.
Qed.

(** Subtracting an integer commutes with the floor. *)
Lemma Qfloor_sub_Z (x : Q) (k : Z) : Qfloor (x - inject_Z k) = (Qfloor x - k)%Z.
Proof.
  apply Qfloor_unique.
  - pose proof (Qfloor_le x).
    replace (Qfloor x - k)%Z with (Qfloor x + - k)%Z by lia.
    rewrite inject_Z_plus, inject_Z_opp. unfold Qminus.
    now apply Qplus_le_compat; [|apply Qle_refl].
  - pose proof (Qlt_floor x).
    replace (Qfloor x - k + 1)%Z with (Qfloor x + 1 + - k)%Z by lia.
    rewrite inject_Z_plus, inject_Z_opp. unfold Qminus.
    now apply Qplus_lt_le_compat; [|apply Qle_refl].
Qed.

(** A quotient by a positive literal is the fraction [a # p]. *)
Lemma js_div_make (a : Z) (p : positive) : (js_div a (Z.pos p) == a # p)%Q.
Proof. unfold js_div, Qeq. simpl. lia. Qed.

Lemma Qfloor_make (a : Z) (p : positive) : Qfloor (a # p) = (a / Z.pos p)%Z.
Proof. reflexivity. Qed.

(** Truncating [a / p] is [Z.quot]. *)
Lemma js_trunc_make (a : Z) (p : positive) : js_trunc (a # p) = Z.quot a (Z.pos p).
Proof.
  unfold js_trunc, Qceiling.
  destruct (Qlt_le_dec (a # p) 0) as [H|H]; unfold Qlt, Qle in H; simpl in H.
  - change (- (a # p))%Q with ((- a) # p)%Q. rewrite Qfloor_make.
    rewrite <- Z.quot_div_nonneg, Z.quot_opp_l by lia. lia.
  - rewrite Qfloor_make, Z.quot_div_nonneg by lia. reflexivity.
Qed.

(** ** The operations of [formatTime] as integer formulas *)

(** [Math.floor((t / d) % m)] for positive literals [d] and [m]. *)
Lemma js_floor_mod_div (t : Z) (d m : positive) :
  math_floor (js_mod (js_div t (Z.pos d)) (inject_Z (Z.pos m)))
  = (t / Z.pos d - Z.pos m * Z.quot t (Z.pos (d * m)))%Z.
Proof.
  rewrite js_div_make. unfold math_floor, js_mod.
  assert (((t # d) / inject_Z (Z.pos m)) == t # (d * m))%Q as Hq
    by (unfold Qeq; simpl; lia).
  rewrite Hq, js_trunc_make, <- inject_Z_mult, Qfloor_sub_Z.
  reflexivity.
Qed.

(** [Math.floor(t / d)] is floor division. *)
Lemma js_floor_div (t : Z) (d : positive) :
  math_floor (js_div t (Z.pos d)) = (t / Z.pos d)%Z.
Proof. unfold math_floor. now rewrite js_div_make. Qed.

(** On non-negative [t] the second and minute fields are remainders. *)
Lemma js_floor_mod_div_nonneg (t : Z) (d m : positive) :
  (0 <= t)%Z ->
  math_floor (js_mod (js_div t (Z.pos d)) (inject_Z (Z.pos m)))
  = (t / Z.pos d mod Z.pos m)%Z.
Proof.
  intros Ht. rewrite js_floor_mod_div, Z.quot_div_nonneg by lia.
  rewrite Pos2Z.inj_mul, <- Zdiv_div_pos by lia. divmod_lia.
Qed.
