(* ===== verification/Format.v ===== *)
(** * [formatTime] (src/src/Watch.tsx, lines 113-129)

    The definition follows the source expression by expression, on the
    built-ins of [JsBuiltins] and the number arithmetic of [JsNumber].
    Results: on [t >= 0] the four fields are [t / 3600000],
    [(t / 60000) mod 60], [(t / 1000) mod 60] and the truncated hundredths
    [(t mod 1000) / 10] ([formatTime_fields]); below 100 hours the output
    has 11 characters ([formatTime_length]), and from 100 hours on the
    hours field grows with the number of digits ([formatTime_length_hours]);
    a parser reads back the
    hundredths ([formatTime_roundtrip]); on a negative input, which the lap
    differences can be, every field is negative and the output is not a
    time ([formatTime_negative]). *)

From Stdlib Require Import ZArith QArith String Ascii Lia.
From S2P Require Import Prelude JsBuiltins JsNumber.
Open Scope Z_scope.
Open Scope js_scope.

(** ** The function *)

Definition formatTime (time : Z) : string :=
  let milliseconds :=
    js_substring 0 2 (padStart 3 "0" (number_toString (js_rem time 1000))) in
  let seconds :=
    padStart 2 "0"
      (number_toString (math_floor (js_mod (js_div time 1000) (inject_Z 60)))) in
  let minutes :=
    padStart 2 "0"
      (number_toString (math_floor (js_mod (js_div time (1000 * 60)) (inject_Z 60)))) in
  let hours :=
    padStart 2 "0" (number_toString (math_floor (js_div time (1000 * 60 * 60)))) in
  hours +s ":" +s minutes +s ":" +s seconds +s "." +s milliseconds.

(** ** A reader of [HH:MM:SS.ff] *)

(** The part of [s] before the first [c], and what follows it. *)
Fixpoint split_at (c : ascii) (s : string) : string * option string :=
  match s with
  | EmptyString => (EmptyString, None)
  | String x s' =>
      if Ascii.eqb x c then (EmptyString, Some s')
      else let (a, r) := split_at c s' in (String x a, r)
  end.

(** The number of hundredths a [HH:MM:SS.ff] string denotes. *)
Definition parse_time (s : string) : option Z :=
  match split_at ":" s with
  | (h, Some r1) =>
      match split_at ":" r1 with
      | (m, Some r2) =>
          match split_at "." r2 with
          | (sec, Some cs) =>
              match parse_digits h, parse_digits m, parse_digits sec, parse_digits cs with
              | Some h, Some m, Some sec, Some cs =>
                  Some (((h * 60 + m) * 60 + sec) * 100 + cs)
              | _, _, _, _ => None
              end
          | _ => None
          end
      | _ => None
      end
  | _ => None
  end.

(** Two-digit zero padding, the form of the [HH], [MM] and [SS] fields. *)
Definition pad2 (n : Z) : string := padStart 2 "0" (number_toString n).

(** ** Fields on non-negative inputs *)

(** The hundredths: the first two of three padded digits. *)
Lemma milliseconds_field r :
  0 <= r < 1000 ->
  js_substring 0 2 (padStart 3 "0" (number_toString r)) = pad2 (r / 10).
Proof.
  intros Hr. unfold pad2. rewrite pad3_digits, pad2_digits by divmod_lia.
  rewrite Zdiv_div_pos by lia. reflexivity.
Qed.

(** The four fields on [t >= 0]. *)
Lemma formatTime_nonneg t :
  0 <= t ->
  formatTime t
  = pad2 (t / 3600000) +s ":" +s pad2 (t / 60000 mod 60) +s ":"
    +s pad2 (t / 1000 mod 60) +s "." +s pad2 (t mod 1000 / 10).
Proof.
  intros Ht. unfold formatTime.
  change (1000 * 60 * 60) with (Z.pos 3600000). change (1000 * 60) with (Z.pos 60000).
  change (inject_Z 60) with (inject_Z (Z.pos 60)).
  rewrite !js_floor_mod_div_nonneg, js_floor_div by lia.
  unfold js_rem. rewrite Z.rem_mod_nonneg by lia.
  rewrite milliseconds_field by (pose proof (Z.mod_pos_bound t 1000); lia).
  reflexivity.
Qed.

(** C11: [formatTime] on [t >= 0]: hours, minutes, seconds and the truncated
    hundredths, each padded to two digits. *)
Theorem formatTime_fields t :
  0 <= t ->
  formatTime t
  = pad2 (t / 3600000) +s ":" +s pad2 (t / 60000 mod 60) +s ":"
    +s pad2 (t / 1000 mod 60) +s "." +s pad2 (t mod 1000 / 10).
Proof. apply formatTime_nonneg. Qed.

Lemma pad2_length n : 0 <= n < 100 -> String.length (pad2 n) = 2%nat.
Proof. intros. unfold pad2. now rewrite pad2_digits. Qed.

(** C23: Below 100 hours the display has the 11 characters of [HH:MM:SS.ff]. *)
Theorem formatTime_length t :
  0 <= t < 360000000 -> String.length (formatTime t) = 11%nat.
Proof.
  intros Ht. rewrite formatTime_nonneg by lia.
  autorewrite with swr. cbn [String.length].
  rewrite !pad2_length by divmod_lia. reflexivity.
Qed.

(** ** Reading the display back *)

(** Splitting at a separator that is not a digit, after a field of digits. *)
Lemma split_at_digits c a b :
  digit_value c = None -> digits_only a = true ->
  split_at c (a +s String c b) = (a, Some b).
Proof.
  intros Hc. induction a as [|x a IH]; intros Ha; cbn [String.append split_at].
  - now rewrite Ascii.eqb_refl.
  - cbn [digits_only] in Ha. destruct (digit_value x) eqn:Hx; [|discriminate].
    destruct (Ascii.eqb_spec x c); [congruence|]. now rewrite IH.
Qed.

Lemma split_at_pad2 c n b :
  digit_value c = None -> 0 <= n -> split_at c (pad2 n +s String c b) = (pad2 n, Some b).
Proof. intros. apply split_at_digits; [assumption | now apply digits_only_padStart]. Qed.

Lemma parse_formatTime t : 0 <= t -> parse_time (formatTime t) = Some (t / 10).
Proof.
  intros Ht. rewrite formatTime_nonneg by lia. unfold parse_time.
  cbn [String.append].
  rewrite !split_at_pad2 by (reflexivity || divmod_lia).
  unfold pad2. rewrite !parse_padStart by divmod_lia.
  f_equal. divmod_lia.
Qed.

(** C12: Round trip: reading [formatTime t] as [HH:MM:SS.ff] gives the number
    of whole hundredths in [t], for every [t >= 0] (the hour field is not
    bounded). *)
Theorem formatTime_roundtrip t :
  0 <= t -> parse_time (formatTime t) = Some (t / 10).
Proof. apply parse_formatTime. Qed.

(** ** Negative inputs *)

Lemma parse_time_minus rest : parse_time (String "-" rest) = None.
Proof.
  unfold parse_time. cbn [split_at]. change (Ascii.eqb "-" ":") with false.
  destruct (split_at ":" rest) as [a [r1|]]; [|reflexivity].
  destruct (split_at ":" r1) as [m [r2|]]; [|reflexivity].
  destruct (split_at "." r2) as [sec [cs|]]; reflexivity.
Qed.

(** C13: A negative value, such as the [difference] of a lap shorter than the
    one before it, is printed with a negative hour field first, so the
    display is not a [HH:MM:SS.ff] time. *)
Theorem formatTime_negative t :
  t < 0 -> parse_time (formatTime t) = None.
Proof.
  intros Ht. unfold formatTime.
  change (1000 * 60 * 60) with (Z.pos 3600000). rewrite js_floor_div.
  destruct (number_toString_neg (t / 3600000)) as [s [Hs Hlen]]; [divmod_lia|].
  rewrite Hs, padStart_long by (cbn [String.append String.length]; lia).
  apply parse_time_minus.
Qed.

(** The three values of the specification (section 8) and a negative lap
    difference of half a second. *)
Example formatTime_examples :
  formatTime 0 = "00:00:00.00"%string /\ formatTime 3661010 = "01:01:01.01"%string
  /\ formatTime 999 = "00:00:00.99"%string /\ formatTime (-500) = "-1:-1:-1.-5"%string.
Proof. vm_compute. repeat split. Qed.

(** ** Concrete inputs *)

Lemma formatTime_fields_witness :
  formatTime 3661010
  = pad2 (3661010 / 3600000) +s ":" +s pad2 (3661010 / 60000 mod 60) +s ":"
    +s pad2 (3661010 / 1000 mod 60) +s "." +s pad2 (3661010 mod 1000 / 10).
Proof. apply formatTime_fields. lia. Defined.

(** C24: For every [t >= 0] the display is the hours field, at least two
    digits and as many as the hours need, then the 9 characters of
    [:MM:SS.ff]: from 100 hours on it is longer than [HH:MM:SS.ff]. *)
Theorem formatTime_length_hours t :
  0 <= t ->
  String.length (formatTime t)
  = (9 + Nat.max 2 (String.length (number_toString (t / 3600000))))%nat.
Proof.
  intros Ht. rewrite formatTime_nonneg by lia.
  autorewrite with swr. cbn [String.length].
  unfold pad2 at 1. rewrite padStart_length, !pad2_length by divmod_lia. lia.
Qed.

Lemma formatTime_length_hours_witness :
  String.length (formatTime 360000000)
  = (9 + Nat.max 2 (String.length (number_toString (360000000 / 3600000))))%nat
  /\ String.length (formatTime 360000000) = 12%nat.
Proof. split; [apply formatTime_length_hours; lia | vm_compute; reflexivity]. Defined.

Lemma formatTime_length_witness : String.length (formatTime 3661010) = 11%nat.
Proof. apply formatTime_length. lia. Defined.

Lemma formatTime_roundtrip_witness : parse_time (formatTime 3661010) = Some (3661010 / 10).
Proof. apply formatTime_roundtrip. lia. Defined.

Lemma formatTime_negative_witness : parse_time (formatTime (-500)) = None.
Proof. apply formatTime_negative. lia. Defined.
