(* ===== verification/Timers.v ===== *)
(** * The browser timer table behind [setInterval] and [clearInterval]

    The component calls [setInterval(cb, 10)] and [clearInterval(id)]
    (Watch.tsx lines 16-25).  The table is an interface: [TimerApi] gives
    the two calls and two observations, [live t i] (the id is in the map of
    active timers) and [issued t i] (some [setInterval] returned it);
    [TimerLaws] states what the component relies on: the HTML standard's
    rules for the map of active timers, and that a new id was never
    handed out before (every browser allocates ids from a counter; the
    standard only asks the id to be fresh among the active timers).
    [Browser] is a counter-based implementation. *)

From stdpp Require Import base gmap.
From Stdlib Require Import PArith Lia.

Class TimerApi (T : Type) := {
  set_interval : T -> positive * T;
  clear_interval : positive -> T -> T;
  live : T -> positive -> bool;
  issued : T -> positive -> bool
}.

Class TimerLaws (T : Type) `{!TimerApi T} := {
  set_interval_fresh t : issued t (set_interval t).1 = false;
  set_interval_live t j :
    live (set_interval t).2 j = (Pos.eqb j (set_interval t).1 || live t j)%bool;
  set_interval_issued t j :
    issued (set_interval t).2 j = (Pos.eqb j (set_interval t).1 || issued t j)%bool;
  clear_interval_live t i j :
    live (clear_interval i t) j = (negb (Pos.eqb j i) && live t j)%bool;
  clear_interval_issued t i j : issued (clear_interval i t) j = issued t j;
  live_issued t j : live t j = true -> issued t j = true
}.

(** ** Consequences the component uses *)

Section Laws.
Context `{TimerLaws T}.

(** Clearing an id that is not live changes no timer. *)
Lemma clear_interval_dead t i j :
  live t i = false -> live (clear_interval i t) j = live t j.
Proof.
  intros Hi. rewrite clear_interval_live.
  destruct (Pos.eqb_spec j i); [subst; now rewrite Hi | reflexivity].
Qed.

(** A new interval is live and differs from every id issued before. *)
Lemma set_interval_new t i :
  issued t i = true -> (set_interval t).1 <> i.
Proof. intros Hi <-. now rewrite set_interval_fresh in Hi. Qed.
End Laws.

(** ** A counter-based browser *)

(** The next id to hand out, and the ids whose timers are still active. *)
Record Browser := mkBrowser { next_id : positive; active : gset positive }.

#[export] Instance browser_api : TimerApi Browser := {
  set_interval b :=
    (next_id b, mkBrowser (Pos.succ (next_id b)) ({[next_id b]} ∪ active b));
  clear_interval i b := mkBrowser (next_id b) (active b ∖ {[i]});
  live b j := bool_decide (j ∈ active b /\ (j < next_id b)%positive);
  issued b j := bool_decide (j < next_id b)%positive
}.

Ltac browser_bool :=
  apply Bool.eq_iff_eq_true;
  rewrite ?Bool.orb_true_iff, ?Bool.andb_true_iff, ?Bool.negb_true_iff,
    ?Pos.eqb_eq, ?Pos.eqb_neq, ?bool_decide_eq_true, ?elem_of_union,
    ?elem_of_difference, ?elem_of_singleton.

#[export] Instance browser_laws : TimerLaws Browser.
Proof.
  split; intros; simpl.
  - apply bool_decide_eq_false. lia.
  - browser_bool. split.
    + intros [[-> | Hin] Hlt]; [now left|].
      destruct (Pos.eq_dec j (next_id t)); [now left | right; split; [exact Hin | lia]].
    + intros [-> | [Hin Hlt]]; split; [now left | lia | now right | lia].
  - browser_bool. lia.
  - browser_bool. naive_solver.
  - reflexivity.
  - simpl in *. rewrite bool_decide_eq_true in *. tauto.
Qed.

(** A page before any timer was started. *)
Definition browser_init : Browser := mkBrowser 1 ∅.

Lemma browser_init_quiet j : live browser_init j = false.
Proof. apply bool_decide_eq_false. simpl. set_solver. Qed.

