(* ===== verification/Laps.v ===== *)
(** * Laps: the [Lap] record, the arithmetic of [handleLap], the lap rows

    [Lap] is the interface of Watch.tsx lines 3-6.  [lastLapTime] and
    [newLap] are the computation of [handleLap] (lines 48-55) on the
    [time] and [laps] its render saw, [appendLap] its updater.  [renderRow]
    and [renderRows] are the [map] of lines 96-105, applied to the array
    after [reverse()].  [laps_at] records laps at a list of elapsed times
    in a list kept in chronological order, the order the specification
    assumes; the component does not keep that order (see [Component]).

    Results: in a chronological list each lap's [time] plus the previous
    lap's [time] is the elapsed time of the lap ([laps_at_time_pair]), so
    [time] is the segment since the previous lap only for the first two
    laps; the label of row [k] reads back as [length - k]
    ([row_label_roundtrip]); [laps_at_spec_example] evaluates the
    specification's example.
    [lap_ok] (both fields multiples of 10 ms) is kept by [newLap] when the
    elapsed time and the earlier laps have it. *)

From Stdlib Require Import ZArith List String Lia.
From S2P Require Import Prelude JsBuiltins Format.
Import ListNotations.
Open Scope Z_scope.

Module Lap.
(** [interface Lap { time: number; difference: number }] *)
Record Lap := mk { time : Z; difference : Z }.
End Lap.
Abbreviation Lap := Lap.Lap.

(** ** [handleLap] *)

(** [laps.length > 0 ? laps[laps.length - 1].time : 0] *)
Definition lastLapTime (laps : list Lap) : Z :=
  if (0 <? List.length laps)%nat
  then Lap.time (nth (List.length laps - 1) laps (Lap.mk 0 0))
  else 0.

(** The lap [handleLap] appends: [lapTime = time - lastLapTime] and
    [difference = lapTime - lastLapTime]. *)
Definition newLap (time : Z) (laps : list Lap) : Lap :=
  let lastLapTime := lastLapTime laps in
  let lapTime := time - lastLapTime in
  Lap.mk lapTime (lapTime - lastLapTime).

(** The updater [(prevLaps) => [...prevLaps, lap]]. *)
Definition appendLap (lap : Lap) (prevLaps : list Lap) : list Lap :=
  prevLaps ++ [lap].

(** Laps recorded at the elapsed times [marks], each appended to the list
    the previous ones built. *)
Definition laps_at (marks : list Z) : list Lap :=
  fold_left (fun laps m => appendLap (newLap m laps) laps) marks [].

(** ** Rows *)

(** One [<li>]: [(laps.length - index).toString().padStart(2, "0")],
    ["+" + formatTime(lap.time)] and [formatTime(lap.difference)]. *)
Record Row := mkRow { row_label : string; row_time : string; row_difference : string }.

Definition renderRow (len index : nat) (lap : Lap) : Row :=
  mkRow (padStart 2 "0" (number_toString (Z.of_nat len - Z.of_nat index)))
        ("+" +s formatTime (Lap.time lap))
        (formatTime (Lap.difference lap)).

(** [laps.map((lap, index) => ...)] from position [index] on. *)
Fixpoint mapi_from (len index : nat) (laps : list Lap) : list Row :=
  match laps with
  | [] => []
  | lap :: rest => renderRow len index lap :: mapi_from len (S index) rest
  end.

Definition renderRows (laps : list Lap) : list Row := mapi_from (List.length laps) 0 laps.

(** ** Lemmas *)

Lemma lastLapTime_app laps lap : lastLapTime (laps ++ [lap]) = Lap.time lap.
Proof.
  unfold lastLapTime. rewrite List.length_app. simpl.
  destruct (Nat.ltb_spec 0 (List.length laps + 1)); [|lia].
  rewrite app_nth2 by lia. replace (List.length laps + 1 - 1 - List.length laps)%nat with 0%nat by lia.
  reflexivity.
Qed.

(** [lastLapTime] is the [time] of the last lap, or 0. *)
Lemma lastLapTime_last laps : lastLapTime laps = last (map Lap.time laps) 0.
Proof.
  induction laps as [|lap laps _] using rev_ind; [reflexivity|].
  rewrite lastLapTime_app, map_app. cbn [map]. now rewrite last_app_single.
Qed.

Lemma lastLapTime_nil : lastLapTime [] = 0.
Proof. reflexivity. Qed.

Lemma laps_at_snoc marks m :
  laps_at (marks ++ [m]) = laps_at marks ++ [newLap m (laps_at marks)].
Proof. unfold laps_at. now rewrite fold_left_app. Qed.

Lemma length_laps_at marks : List.length (laps_at marks) = List.length marks.
Proof.
  induction marks as [|m marks IH] using rev_ind; [reflexivity|].
  rewrite laps_at_snoc, !List.length_app, IH. reflexivity.
Qed.

(** A lap whose two fields are whole hundredths of a second. *)
Definition lap_ok (lap : Lap) : Prop :=
  Lap.time lap mod 10 = 0 /\ Lap.difference lap mod 10 = 0.

Lemma lastLapTime_ok laps : Forall lap_ok laps -> lastLapTime laps mod 10 = 0.
Proof.
  intros Hl. unfold lastLapTime. destruct (0 <? List.length laps)%nat; [|reflexivity].
  destruct (nth_in_or_default (List.length laps - 1) laps (Lap.mk 0 0)) as [Hin | ->];
    [exact (proj1 (proj1 (Forall_forall lap_ok laps) Hl _ Hin)) | reflexivity].
Qed.

Lemma newLap_ok time laps :
  time mod 10 = 0 -> Forall lap_ok laps -> lap_ok (newLap time laps).
Proof.
  intros Ht Hl. pose proof (lastLapTime_ok laps Hl) as Hlast.
  unfold lap_ok, newLap. cbn [Lap.time Lap.difference].
  generalize dependent (lastLapTime laps). intros l Hlast. split; divmod_lia.
Qed.

(** ** Properties *)

(** C28: In a chronological list, a lap's [time] and the previous lap's [time]
    add up to the elapsed time at which the lap was recorded. *)
Theorem laps_at_time_pair marks k :
  (S k < List.length marks)%nat ->
  Lap.time (nth (S k) (laps_at marks) (Lap.mk 0 0))
  + Lap.time (nth k (laps_at marks) (Lap.mk 0 0))
  = nth (S k) marks 0.
Proof.
  revert k. induction marks as [|m marks IH] using rev_ind; intros k Hk;
    [simpl in Hk; lia|].
  rewrite List.length_app in Hk. simpl in Hk.
  rewrite laps_at_snoc, (app_nth1 _ _ _ (ltac:(rewrite length_laps_at; lia) : (k < List.length (laps_at marks))%nat)).
  destruct (Nat.eq_dec (S k) (List.length marks)) as [E|E].
  - rewrite app_nth2, app_nth2 by (rewrite ?length_laps_at; lia).
    rewrite length_laps_at, E, Nat.sub_diag. simpl.
    unfold lastLapTime. rewrite length_laps_at.
    destruct (Nat.ltb_spec 0 (List.length marks)); [|lia].
    replace (List.length marks - 1)%nat with k by lia. lia.
  - rewrite app_nth1, app_nth1 by (rewrite ?length_laps_at; lia).
    apply IH. lia.
Qed.

(** The specification's example (section 8): laps at 1000 and 2500. *)
Example laps_at_spec_example :
  laps_at [1000; 2500] = [Lap.mk 1000 1000; Lap.mk 1500 500].
Proof. reflexivity. Qed.

Lemma mapi_from_nth len index laps k :
  nth_error (mapi_from len index laps) k
  = option_map (renderRow len (index + k)) (nth_error laps k).
Proof.
  revert index k. induction laps as [|lap laps IH]; intros index [|k]; simpl;
    [reflexivity | reflexivity | now rewrite Nat.add_0_r |].
  rewrite IH. now rewrite Nat.add_succ_r.
Qed.

(** C29: The label of row [k] is the decimal of [length - k], zero-padded
    to two characters while there are fewer than 100 laps: reading it back
    gives the lap's number, counting down from the newest lap's. *)
Theorem row_label_roundtrip laps k :
  (k < List.length laps)%nat ->
  exists row, nth_error (renderRows laps) k = Some row
    /\ parse_digits (row_label row) = Some (Z.of_nat (List.length laps) - Z.of_nat k)
    /\ ((List.length laps < 100)%nat -> String.length (row_label row) = 2%nat).
Proof.
  intros Hk. unfold renderRows. rewrite mapi_from_nth.
  destruct (nth_error laps k) as [lap|] eqn:E; [|apply nth_error_None in E; lia].
  eexists; split; [reflexivity|]. cbn [option_map renderRow row_label].
  split; [apply parse_padStart; lia|]. intros Hl. apply pad2_length. lia.
Qed.

Lemma length_renderRows laps : List.length (renderRows laps) = List.length laps.
Proof.
  unfold renderRows. generalize 0%nat. generalize (List.length laps) at 1.
  intros len. induction laps as [|x laps IH]; intros i; simpl; [reflexivity|]. now rewrite IH.
Qed.

Lemma laps_at_time_pair_witness :
  Lap.time (nth 2 (laps_at [1000; 2500; 4000]) (Lap.mk 0 0))
  + Lap.time (nth 1 (laps_at [1000; 2500; 4000]) (Lap.mk 0 0))
  = nth 2 [1000; 2500; 4000] 0.
Proof. apply (laps_at_time_pair [1000; 2500; 4000] 1). simpl. lia. Defined.

Lemma row_label_roundtrip_witness :
  exists row, nth_error (renderRows (laps_at [1000; 2500; 4000])) 1 = Some row
    /\ parse_digits (row_label row)
       = Some (Z.of_nat (List.length (laps_at [1000; 2500; 4000])) - Z.of_nat 1)
    /\ ((List.length (laps_at [1000; 2500; 4000]%Z) < 100)%nat ->
        String.length (row_label row) = 2%nat).
Proof. apply (row_label_roundtrip (laps_at [1000; 2500; 4000]) 1). vm_compute. lia. Defined.
