(* ===== verification/Component.v ===== *)
(** * The [Stopwatch] component and the React runtime around it

    One mounted instance of the component of src/src/Watch.tsx (lines
    8-111), with the parts of React and of the browser it uses:
    - [Hooks]: the four [useState] cells (lines 9-12);
    - [Update]: a queued state update; [setX(v)] is queued as the
      constant updater, as React's [basicStateReducer] does;
    - the five handlers (lines 29-55) and the interval callback (line 17),
      each a function from the values of the last render to the updates
      it queues;
    - [render] (lines 57-110): the screen, and the in-place
      [laps.reverse()] of line 96, which changes the state array itself;
    - [effect_body] and [effect_cleanup] (lines 14-27);
    - [commit]: apply a batch, render, run the effect if [running]
      changed (cleanup of the previous run first), and commit the updates
      the effect queued ([setIntervalId]) the same way;
    - [mount], [unmount] and [dispatch] on [Event]s.
    The timer table is any [TimerLaws] instance. *)

From Stdlib Require Import ZArith List String Bool Lia.
From S2P Require Import Prelude JsBuiltins Format Timers Laps.
Import ListNotations.
Open Scope Z_scope.

(** ** State of the component *)

Record Hooks := mkHooks {
  time : Z;
  running : bool;
  intervalId : option positive;
  laps : list Lap
}.

Definition set_laps (l : list Lap) (h : Hooks) : Hooks :=
  mkHooks (time h) (running h) (intervalId h) l.

Inductive Update :=
| SetTime (f : Z -> Z)
| SetRunning (f : bool -> bool)
| SetIntervalId (f : option positive -> option positive)
| SetLaps (f : list Lap -> list Lap).

Definition apply_update (h : Hooks) (u : Update) : Hooks :=
  match u with
  | SetTime f => mkHooks (f (time h)) (running h) (intervalId h) (laps h)
  | SetRunning f => mkHooks (time h) (f (running h)) (intervalId h) (laps h)
  | SetIntervalId f => mkHooks (time h) (running h) (f (intervalId h)) (laps h)
  | SetLaps f => mkHooks (time h) (running h) (intervalId h) (f (laps h))
  end.

(** React applies a hook's queue in order. *)
Definition apply_updates (h : Hooks) (us : list Update) : Hooks :=
  fold_left apply_update us h.

(** [setX(v)]: the updater that ignores the previous value. *)
Definition always {A} (v : A) : A -> A := fun _ => v.

(** ** Handlers *)

Definition handleStart (h : Hooks) : list Update :=
  [SetRunning (always true); SetLaps (always [])].

Definition handlePause (h : Hooks) : list Update :=
  [SetRunning (always false)].

Definition handleStop (h : Hooks) : list Update :=
  [SetRunning (always false); SetTime (always 0)].

Definition handleReset (h : Hooks) : list Update :=
  [SetTime (always 0); SetLaps (always [])].

(** [lastLapTime] and [time] are read from the render's values; the new
    array is built from the queue's previous value. *)
Definition handleLap (h : Hooks) : list Update :=
  [SetLaps (appendLap (newLap (time h) (laps h)))].

(** The interval callback [() => setTime((prevTime) => prevTime + 10)]. *)
Definition tick_callback : list Update :=
  [SetTime (fun prevTime => prevTime + 10)].

(** ** Rendering *)

Record Screen := mkScreen {
  display : string;
  start_disabled : bool;
  pause_disabled : bool;
  stop_disabled : bool;
  lap_disabled : bool;
  lap_rows : option (list Row)
}.

(** What lines 58-109 show for hook values [h] whose array has already
    been reversed. *)
Definition view (h : Hooks) : Screen :=
  mkScreen (formatTime (time h)) (running h) (negb (running h)) (negb (running h))
    (negb (running h))
    (if (0 <? List.length (laps h))%nat then Some (renderRows (laps h)) else None).

(** A render: [laps.length > 0 && laps.reverse().map(...)] reverses the
    state array in place, so the hooks after the render hold the reversed
    array, and the rows are drawn from it. *)
Definition render (h : Hooks) : Hooks * Screen :=
  let h' := if (0 <? List.length (laps h))%nat then set_laps (rev (laps h)) h else h in
  (h', view h').

(** ** The runtime *)

Section Runtime.
Context {T : Type} `{TimerLaws T}.

Record Fiber := mkFiber {
  hooks : Hooks;
  screen : Screen;
  deps : bool;                   (** [running] at the last committed render *)
  cleanup_id : option positive;  (** [intervalId] seen by the last effect's cleanup *)
  mounted : bool;
  timers : T
}.

(** Lines 15-22 with the values of the render that runs them: start an
    interval and queue [setIntervalId(id)], or clear [intervalId]. *)
Definition effect_body (h : Hooks) (tm : T) : T * list Update :=
  if running h then
    let (id, tm') := set_interval tm in (tm', [SetIntervalId (always (Some id))])
  else
    (match intervalId h with Some id => clear_interval id tm | None => tm end, []).

(** Lines 24-26: the cleanup clears the [intervalId] of its own render. *)
Definition effect_cleanup (captured : option positive) (tm : T) : T :=
  match captured with Some id => clear_interval id tm | None => tm end.

(** Apply a batch, render, and run the effect when its dependency
    [running] changed; returns the updates the effect queued. *)
Definition commit_once (f : Fiber) (us : list Update) : Fiber * list Update :=
  let (h, scr) := render (apply_updates (hooks f) us) in
  if Bool.eqb (running h) (deps f) then
    (mkFiber h scr (deps f) (cleanup_id f) (mounted f) (timers f), [])
  else
    let (tm, us') := effect_body h (effect_cleanup (cleanup_id f) (timers f)) in
    (mkFiber h scr (running h) (intervalId h) (mounted f) tm, us').

(** Commit until no update is queued. *)
Fixpoint process (fuel : nat) (f : Fiber) (us : list Update) : Fiber :=
  match fuel with
  | O => f
  | S n =>
      match us with
      | [] => f
      | _ => let (f', us') := commit_once f us in process n f' us'
      end
  end.

(** Two rounds: the batch, then the [setIntervalId] of the effect. *)
Definition commit (f : Fiber) (us : list Update) : Fiber := process 2 f us.

Definition initial_hooks : Hooks := mkHooks 0 false None [].

(** The first render, then the effect, which always runs on mount. *)
Definition mount (tm : T) : Fiber :=
  let (h, scr) := render initial_hooks in
  let (tm', us) := effect_body h tm in
  commit (mkFiber h scr (running h) (intervalId h) true tm') us.

(** Unmounting runs the last effect's cleanup. *)
Definition unmount (f : Fiber) : Fiber :=
  mkFiber (hooks f) (screen f) (deps f) (cleanup_id f) false
    (effect_cleanup (cleanup_id f) (timers f)).

Inductive Button := Start | Pause | Stop | Reset | LapButton.

Inductive Event :=
| Click (b : Button)
| Tick (id : positive)
| Unmount.

Definition button_disabled (s : Screen) (b : Button) : bool :=
  match b with
  | Start => start_disabled s
  | Pause => pause_disabled s
  | Stop => stop_disabled s
  | Reset => false
  | LapButton => lap_disabled s
  end.

Definition handler (b : Button) : Hooks -> list Update :=
  match b with
  | Start => handleStart
  | Pause => handlePause
  | Stop => handleStop
  | Reset => handleReset
  | LapButton => handleLap
  end.

(** One event.  A click on a disabled button does nothing; a timer fires
    only while it is live, and after unmounting its update is dropped;
    there is nothing to click once the component is gone. *)
Definition dispatch (f : Fiber) (e : Event) : option Fiber :=
  match e with
  | Click b =>
      if mounted f then
        if button_disabled (screen f) b then Some f
        else Some (commit f (handler b (hooks f)))
      else None
  | Tick id =>
      if live (timers f) id then
        if mounted f then Some (commit f tick_callback) else Some f
      else None
  | Unmount => if mounted f then Some (unmount f) else None
  end.

(** A sequence of events from [f]. *)
Fixpoint run (f : Fiber) (es : list Event) : option Fiber :=
  match es with
  | [] => Some f
  | e :: rest => match dispatch f e with Some f' => run f' rest | None => None end
  end.

(** The fibers a page reaches from a timer table with no live timer. *)
Inductive reachable : Fiber -> Prop :=
| reach_mount tm : (forall j, live tm j = false) -> reachable (mount tm)
| reach_step f e f' : reachable f -> dispatch f e = Some f' -> reachable f'.

End Runtime.

Arguments Fiber T : clear implicits.

(** ** Rendering and commits *)

(** The array a render leaves in the hooks. *)
Definition rendered (h : Hooks) : Hooks := fst (render h).

Lemma render_eq h : render h = (rendered h, view (rendered h)).
Proof. reflexivity. Qed.

Lemma rendered_fields h :
  time (rendered h) = time h /\ running (rendered h) = running h
  /\ intervalId (rendered h) = intervalId h
  /\ laps (rendered h) = if (0 <? List.length (laps h))%nat then rev (laps h) else laps h.
Proof. unfold rendered, render. simpl. destruct (0 <? _)%nat; simpl; auto. Qed.

Lemma rendered_running h : running (rendered h) = running h.
Proof. apply rendered_fields. Qed.

Lemma rendered_time h : time (rendered h) = time h.
Proof. apply rendered_fields. Qed.

Lemma rendered_intervalId h : intervalId (rendered h) = intervalId h.
Proof. apply rendered_fields. Qed.

(** A render reverses the array whenever it is not empty ([rev] of the
    empty array is the empty array). *)
Lemma rendered_laps h : laps (rendered h) = rev (laps h).
Proof.
  destruct (rendered_fields h) as (_ & _ & _ & ->).
  destruct (laps h); reflexivity.
Qed.

Section CommitFacts.
Context {T : Type} `{TimerLaws T}.
Implicit Types (f : Fiber T) (us : list Update).

(** A batch that leaves [running] as the effect last saw it is one
    render and no effect. *)
Lemma commit_keep f us :
  us <> [] -> running (apply_updates (hooks f) us) = deps f ->
  commit f us
  = mkFiber (rendered (apply_updates (hooks f) us))
      (view (rendered (apply_updates (hooks f) us)))
      (deps f) (cleanup_id f) (mounted f) (timers f).
Proof.
  intros Hus Hr. destruct us as [|u us]; [congruence|].
  unfold commit. cbn [process]. unfold commit_once. rewrite render_eq. cbv beta iota zeta.
  destruct (rendered_fields (apply_updates (hooks f) (u :: us))) as (_ & -> & _).
  rewrite Hr, eqb_reflx. reflexivity.
Qed.

(** A batch that turns [running] off: one render, the previous cleanup,
    then [clearInterval(intervalId)]. *)
Lemma commit_stop f us :
  us <> [] -> running (apply_updates (hooks f) us) = false -> deps f = true ->
  let h := rendered (apply_updates (hooks f) us) in
  commit f us
  = mkFiber h (view h) false (intervalId h) (mounted f)
      (effect_cleanup (intervalId h) (effect_cleanup (cleanup_id f) (timers f))).
Proof.
  intros Hus Hr Hd. destruct us as [|u us]; [congruence|].
  unfold commit. cbn [process]. unfold commit_once. rewrite render_eq. cbv beta iota zeta.
  destruct (rendered_fields (apply_updates (hooks f) (u :: us))) as (_ & Hrr & _).
  rewrite Hrr, Hr, Hd. cbn [eqb]. unfold effect_body. rewrite Hrr, Hr. reflexivity.
Qed.

(** A batch that turns [running] on: a render, the previous cleanup, a
    new interval, then a second render for [setIntervalId(id)], which
    does not run the effect again. *)
Lemma commit_start f us :
  us <> [] -> running (apply_updates (hooks f) us) = true -> deps f = false ->
  let h := rendered (apply_updates (hooks f) us) in
  let (id, tm) := set_interval (effect_cleanup (cleanup_id f) (timers f)) in
  let h2 := rendered (apply_update h (SetIntervalId (always (Some id)))) in
  commit f us = mkFiber h2 (view h2) true (intervalId h) (mounted f) tm.
Proof.
  intros Hus Hr Hd. destruct us as [|u us]; [congruence|].
  unfold commit. cbn [process]. unfold commit_once.
  revert Hr. generalize (apply_updates (hooks f) (u :: us)) as h0. intros h0 Hr.
  rewrite render_eq. cbv beta iota zeta.
  rewrite rendered_running, Hr, Hd. cbn [eqb]. unfold effect_body.
  rewrite rendered_running, Hr.
  destruct (set_interval _) as [id tm]. cbn [process].
  unfold commit_once. rewrite render_eq. cbv beta iota zeta.
  cbn [hooks deps apply_updates fold_left].
  rewrite rendered_running. cbn [apply_update running].
  rewrite ?rendered_running, ?Hr. reflexivity.
Qed.
(** ** The commit loop *)

Lemma process_nil n f : process n f [] = f.
Proof. now destruct n. Qed.

(** One commit queues at most the effect's [setIntervalId], whose own
    commit queues nothing. *)
Lemma commit_once_settles f us :
  let (f1, us1) := commit_once f us in us1 = [] \/ snd (commit_once f1 us1) = [].
Proof.
  unfold commit_once at 1. rewrite render_eq. cbv beta iota zeta.
  destruct (eqb _ (deps f)); [now left|].
  destruct (effect_body _ _) as [tm us'] eqn:Heff.
  unfold effect_body in Heff. rewrite rendered_running in Heff.
  destruct (running (apply_updates (hooks f) us)) eqn:Hr.
  - right. destruct (set_interval _) as [id tm']. injection Heff as <- <-.
    unfold commit_once. rewrite render_eq. cbv beta iota zeta.
    cbn [hooks deps apply_updates fold_left apply_update running].
    rewrite rendered_running, rendered_running, Hr. reflexivity.
  - left. now injection Heff as _ <-.
Qed.

(** C22: After the effect's [setIntervalId] is committed nothing is queued:
    any fuel of at least two gives the result of two rounds. *)
Theorem process_fuel n f us : process (S (S n)) f us = process 2 f us.
Proof.
  destruct us as [|u us]; [reflexivity|]. cbn [process].
  pose proof (commit_once_settles f (u :: us)) as Hs.
  destruct (commit_once f (u :: us)) as [f1 us1].
  destruct us1 as [|u1 us1]; [reflexivity|].
  destruct Hs as [Hs|Hs]; [discriminate|]. cbn [process].
  destruct (commit_once f1 (u1 :: us1)) as [f2 us2]. cbn [snd] in Hs. subst us2.
  cbv beta iota. now rewrite !process_nil.
Qed.

End CommitFacts.
