(* ===== verification/Invariants.v ===== *)
(** * Invariants of a mounted [Stopwatch], and what unmounting leaves

    [inv] relates the hooks, the screen, the effect's bookkeeping and the
    timer table of a mounted fiber: the effect has seen the current
    [running]; [time] is a non-negative multiple of 10; the screen is the
    view of the hooks; while running exactly the interval [intervalId] is
    live, and otherwise none; the id the cleanup closure holds is dead
    while running and is [intervalId] otherwise, and was issued.  Each
    commit shape of
    [Component] preserves it ([inv_commit_keep], [inv_commit_stop],
    [inv_commit_start]); every event does ([inv_dispatch]); so every
    reachable mounted fiber satisfies it ([reachable_inv]).  An event
    only starts intervals and clears ids the table had issued
    ([footprint_dispatch]), which is what [Page] needs to run several
    instances on one table.

    The cleanup closure of the effect run that started the interval holds
    the [intervalId] of the render before [setIntervalId], never the live
    id: unmounting while running leaves that interval live
    ([unmount_running_leaks]); [Page] shows that nothing ever clears it.
    After Pause or Stop no interval is live ([stopped_no_tick]). *)

From Stdlib Require Import ZArith List String Bool Lia.
From S2P Require Import Prelude Timers Laps Component.
Import ListNotations.
Open Scope Z_scope.

Definition time_ok (z : Z) : Prop := 0 <= z /\ z mod 10 = 0.

Section Inv.
Context {T : Type} `{TimerLaws T}.
Implicit Types (f : Fiber T) (us : list Update).

Record inv f : Prop := {
  inv_deps : deps f = running (hooks f);
  inv_time : time_ok (time (hooks f));
  inv_screen : screen f = view (hooks f);
  inv_issued : forall i, intervalId (hooks f) = Some i -> issued (timers f) i = true;
  inv_live : forall j,
    live (timers f) j = true <-> running (hooks f) = true /\ intervalId (hooks f) = Some j;
  inv_running_id : running (hooks f) = true -> exists i, intervalId (hooks f) = Some i;
  inv_cleanup :
    if running (hooks f) then forall c, cleanup_id f = Some c -> live (timers f) c = false
    else cleanup_id f = intervalId (hooks f);
  inv_cleanup_issued : forall c, cleanup_id f = Some c -> issued (timers f) c = true
}.

(** ** The timer table under the effect *)

Lemma effect_cleanup_issued o tm j : issued (effect_cleanup o tm) j = issued tm j.
Proof. destruct o; simpl; [apply clear_interval_issued | reflexivity]. Qed.

Lemma effect_cleanup_dead o tm j :
  (forall c, o = Some c -> live tm c = false) -> live (effect_cleanup o tm) j = live tm j.
Proof.
  destruct o as [c|]; simpl; intros Hc; [|reflexivity].
  apply clear_interval_dead, Hc. reflexivity.
Qed.

Lemma effect_cleanup_cleared o tm j :
  live (effect_cleanup o tm) j = true -> o <> Some j /\ live tm j = true.
Proof.
  destruct o as [c|]; simpl; intros Hl; [|split; [discriminate | assumption]].
  rewrite clear_interval_live in Hl. apply andb_prop in Hl as [Hne Hl].
  split; [|assumption]. intros [= ->]. now rewrite Pos.eqb_refl in Hne.
Qed.

(** The cleanup of a fiber satisfying [inv] only clears dead ids. *)
Lemma inv_cleanup_dead f c : inv f -> cleanup_id f = Some c -> live (timers f) c = false.
Proof.
  intros Hi Hc. pose proof (inv_cleanup f Hi) as Hcl.
  destruct (running (hooks f)) eqn:Hr; [now apply Hcl|].
  rewrite Hcl in Hc. destruct (live (timers f) c) eqn:Hl; [|reflexivity].
  apply (inv_live f Hi) in Hl. destruct Hl; congruence.
Qed.

(** ** Each commit shape preserves [inv] *)

Lemma inv_commit_keep f us :
  inv f -> us <> [] ->
  running (apply_updates (hooks f) us) = running (hooks f) ->
  intervalId (apply_updates (hooks f) us) = intervalId (hooks f) ->
  time_ok (time (apply_updates (hooks f) us)) ->
  inv (commit f us).
Proof.
  intros Hi Hus Hr Hid Ht. rewrite commit_keep by (try rewrite (inv_deps f Hi); assumption).
  pose proof (inv_live f Hi). pose proof (inv_cleanup f Hi).
  pose proof (inv_running_id f Hi). pose proof (inv_issued f Hi).
  pose proof (inv_cleanup_issued f Hi).
  constructor; cbn [hooks screen deps cleanup_id timers];
    rewrite ?rendered_running, ?rendered_intervalId, ?rendered_time, ?Hr, ?Hid;
    auto using inv_deps.
Qed.

Lemma inv_commit_stop f us :
  inv f -> us <> [] -> running (hooks f) = true ->
  running (apply_updates (hooks f) us) = false ->
  intervalId (apply_updates (hooks f) us) = intervalId (hooks f) ->
  time_ok (time (apply_updates (hooks f) us)) ->
  inv (commit f us).
Proof.
  intros Hi Hus Hrun Hr Hid Ht.
  rewrite commit_stop by (try rewrite (inv_deps f Hi); assumption).
  constructor; cbn [hooks screen deps cleanup_id timers];
    rewrite ?rendered_running, ?rendered_intervalId, ?rendered_time, ?Hr, ?Hid;
    try easy.
  - intros i Hid'. rewrite !effect_cleanup_issued. now apply (inv_issued f Hi).
  - intros j. split; [|intros [? _]; discriminate].
    intros [Hne Hl]%effect_cleanup_cleared.
    rewrite effect_cleanup_dead in Hl by (intros c; apply inv_cleanup_dead, Hi).
    apply (inv_live f Hi) in Hl as [_ Hj]. congruence.
  - intros c Hc. rewrite !effect_cleanup_issued. now apply (inv_issued f Hi).
Qed.

Lemma inv_commit_start f us :
  inv f -> us <> [] -> running (hooks f) = false ->
  running (apply_updates (hooks f) us) = true ->
  intervalId (apply_updates (hooks f) us) = intervalId (hooks f) ->
  time_ok (time (apply_updates (hooks f) us)) ->
  inv (commit f us).
Proof.
  intros Hi Hus Hrun Hr Hid Ht.
  pose proof (commit_start f us Hus Hr ltac:(rewrite (inv_deps f Hi); assumption)) as Hc.
  cbv zeta in Hc.
  set (tm0 := effect_cleanup (cleanup_id f) (timers f)) in Hc.
  assert (Hlive0 : forall j, live tm0 j = false).
  { intros j. unfold tm0. rewrite effect_cleanup_dead by (intros c; apply inv_cleanup_dead, Hi).
    destruct (live (timers f) j) eqn:Hl; [|reflexivity].
    apply (inv_live f Hi) in Hl as [Hl _]. congruence. }
  assert (Hiss0 : forall j, issued tm0 j = issued (timers f) j)
    by (intros; apply effect_cleanup_issued).
  destruct (set_interval tm0) as [id tm] eqn:Hset. rewrite Hc. clear Hc.
  assert (Hnew : forall j, live tm j = Pos.eqb j id).
  { intros j. pose proof (set_interval_live tm0 j) as F. rewrite Hset in F.
    cbn [fst snd] in F. now rewrite F, Hlive0, orb_false_r. }
  assert (Hfresh : issued tm0 id = false).
  { pose proof (set_interval_fresh tm0) as F. now rewrite Hset in F. }
  constructor; cbn [hooks screen deps cleanup_id timers apply_update always];
    rewrite ?rendered_running, ?rendered_intervalId, ?rendered_time; cbn [running intervalId time];
    rewrite ?rendered_running, ?rendered_intervalId, ?rendered_time, ?Hr, ?Hid;
    try easy.
  - intros i [= <-]. pose proof (set_interval_issued tm0 id) as F. rewrite Hset in F.
    cbn [fst snd] in F. now rewrite F, Pos.eqb_refl.
  - intros j. rewrite Hnew. split.
    + intros ->%Pos.eqb_eq. auto.
    + intros [_ [= ->]]. apply Pos.eqb_refl.
  - eauto.
  - intros c Hc. rewrite Hnew. apply Pos.eqb_neq. intros ->.
    rewrite Hiss0, (inv_issued f Hi id Hc) in Hfresh. discriminate.
  - intros c Hc. pose proof (set_interval_issued tm0 c) as F. rewrite Hset in F.
    cbn [fst snd] in F. rewrite F, Hiss0, (inv_issued f Hi c Hc). apply orb_true_r.
Qed.

(** ** Every event preserves [inv] *)

Lemma mount_eq tm :
  mount tm = mkFiber initial_hooks (view initial_hooks) false None true tm.
Proof. reflexivity. Qed.

Lemma inv_mount tm : (forall j, live tm j = false) -> inv (mount tm).
Proof.
  intros Hq. rewrite mount_eq.
  constructor; cbn [hooks screen deps cleanup_id timers initial_hooks running time intervalId];
    try easy.
  intros j. rewrite Hq. split; [discriminate | intros [? _]; discriminate].
Qed.

Lemma inv_click f b :
  inv f -> button_disabled (screen f) b = false -> inv (commit f (handler b (hooks f))).
Proof.
  intros Hi Hb. rewrite (inv_screen f Hi) in Hb. pose proof (inv_time f Hi) as Ht.
  destruct b; cbn in Hb; rewrite ?negb_false_iff in Hb.
  - apply inv_commit_start; easy.
  - apply inv_commit_stop; easy.
  - apply inv_commit_stop; easy.
  - apply inv_commit_keep; easy.
  - apply inv_commit_keep; easy.
Qed.

Lemma inv_tick f : inv f -> inv (commit f tick_callback).
Proof.
  intros Hi. pose proof (inv_time f Hi) as [Ht0 Ht10].
  apply inv_commit_keep; try easy. cbn. split; divmod_lia.
Qed.

(** Once unmounted, an event changes nothing. *)
Lemma dispatch_unmounted f e f' :
  mounted f = false -> dispatch f e = Some f' -> f' = f.
Proof.
  intros Hm. destruct e; unfold dispatch; rewrite Hm; [discriminate| |discriminate].
  destruct (live (timers f) id); congruence.
Qed.

Lemma mounted_commit_once f us : mounted (fst (commit_once f us)) = mounted f.
Proof.
  unfold commit_once. destruct (render _) as [h scr].
  destruct (eqb _ _); [reflexivity|]. destruct (effect_body _ _). reflexivity.
Qed.

Lemma mounted_process n f us : mounted (process n f us) = mounted f.
Proof.
  revert f us; induction n as [|n IH]; intros f us; [reflexivity|].
  cbn [process]. destruct us as [|u us]; [reflexivity|].
  pose proof (mounted_commit_once f (u :: us)) as Hm.
  destruct (commit_once f (u :: us)) as [f' us']. rewrite IH. exact Hm.
Qed.

Lemma mounted_commit f us : mounted (commit f us) = mounted f.
Proof. apply mounted_process. Qed.

Lemma inv_dispatch f e f' :
  inv f -> mounted f = true -> dispatch f e = Some f' -> mounted f' = true -> inv f'.
Proof.
  intros Hi Hm Hd Hm'. destruct e as [b|id|]; unfold dispatch in Hd; rewrite Hm in Hd.
  - destruct (button_disabled (screen f) b) eqn:Hb; injection Hd as <-;
      [assumption | now apply inv_click].
  - destruct (live (timers f) id); [|discriminate]. injection Hd as <-. now apply inv_tick.
  - injection Hd as <-. discriminate.
Qed.

(** Every reachable mounted fiber satisfies [inv]. *)
Lemma reachable_inv f : reachable f -> mounted f = true -> inv f.
Proof.
  induction 1 as [tm Hq | f e f' Hr IH Hd]; intros Hm'; [now apply inv_mount|].
  destruct (mounted f) eqn:Hm.
  - eapply inv_dispatch; eauto.
  - pose proof (dispatch_unmounted f e f' Hm Hd) as ->. congruence.
Qed.

Lemma reachable_run f es f' : reachable f -> run f es = Some f' -> reachable f'.
Proof.
  revert f; induction es as [|e es IH]; intros f Hr Hrun; cbn in Hrun.
  - now injection Hrun as <-.
  - destruct (dispatch f e) as [g|] eqn:Hd; [|discriminate].
    eapply IH; [eapply reach_step|]; eauto.
Qed.

(** ** The footprint of an event on the timer table *)

(** The tables reachable from [t] by starting intervals and clearing ids
    that [t] had issued: what one component does to the table. *)
Inductive footprint (t : T) : T -> Prop :=
| fp_refl : footprint t t
| fp_clear i t' : footprint t t' -> issued t i = true -> footprint t (clear_interval i t')
| fp_set t' : footprint t t' -> footprint t (snd (set_interval t')).

Lemma footprint_cleanup t t' o :
  footprint t t' -> (forall c, o = Some c -> issued t c = true) ->
  footprint t (effect_cleanup o t').
Proof. intros Hf Ho. destruct o as [c|]; [apply fp_clear; auto | exact Hf]. Qed.

Lemma footprint_commit f us :
  inv f -> us <> [] -> intervalId (apply_updates (hooks f) us) = intervalId (hooks f) ->
  footprint (timers f) (timers (commit f us)).
Proof.
  intros Hi Hus Hid. pose proof (inv_deps f Hi) as Hd.
  pose proof (footprint_cleanup _ _ (cleanup_id f) (fp_refl _) (inv_cleanup_issued f Hi)) as F0.
  destruct (Bool.bool_dec (running (apply_updates (hooks f) us)) (running (hooks f))) as [E|E].
  - rewrite commit_keep by congruence. apply fp_refl.
  - destruct (running (hooks f)) eqn:Hr, (running (apply_updates (hooks f) us)) eqn:Hr';
      try congruence.
    + rewrite commit_stop by congruence. cbn [timers]. apply footprint_cleanup; [exact F0|].
      rewrite rendered_intervalId, Hid. apply (inv_issued f Hi).
    + pose proof (commit_start f us Hus Hr' ltac:(congruence)) as Hc. cbv zeta in Hc.
      destruct (set_interval _) as [id tm] eqn:Hs. rewrite Hc. cbn [timers].
      change tm with (snd (id, tm)). rewrite <- Hs. now apply fp_set.
Qed.

(** Handlers and the interval callback never write [intervalId]. *)
Lemma handler_intervalId b h : intervalId (apply_updates h (handler b h)) = intervalId h.
Proof. now destruct b. Qed.

Lemma footprint_dispatch f e f' :
  inv f -> dispatch f e = Some f' -> footprint (timers f) (timers f').
Proof.
  intros Hi Hd. destruct (mounted f) eqn:Hm;
    [|rewrite (dispatch_unmounted f e f' Hm Hd); apply fp_refl].
  unfold dispatch in Hd. rewrite Hm in Hd. destruct e as [b|i|].
  - destruct (button_disabled _ _); injection Hd as <-; [apply fp_refl|].
    apply footprint_commit; [exact Hi | now destruct b | apply handler_intervalId].
  - destruct (live _ _); [injection Hd as <-|discriminate].
    now apply footprint_commit.
  - injection Hd as <-. cbn [unmount timers].
    apply footprint_cleanup; [apply fp_refl | apply (inv_cleanup_issued f Hi)].
Qed.
End Inv.

(** ** Properties of reachable fibers *)

Section Reachable.
Context {T : Type} `{TimerLaws T}.
Implicit Types (f : Fiber T).

(** The timer obligations of spec section 5: at most one live interval, none
    at all, and an interval still live after the component is gone. *)
Definition single_timer f : Prop :=
  forall i j, live (timers f) i = true -> live (timers f) j = true -> i = j.

Definition no_live_timer f : Prop := forall j, live (timers f) j = false.

Definition leaked f (i : positive) : Prop := mounted f = false /\ live (timers f) i = true.

(** C1: While the component is mounted at most one interval is live, and
    an interval is live only while the stopwatch runs (spec section 5). *)
Theorem single_interval f :
  reachable f -> mounted f = true ->
  single_timer f /\ (forall i, live (timers f) i = true -> running (hooks f) = true).
Proof.
  intros Hr Hm. pose proof (reachable_inv f Hr Hm) as Inv. split.
  - intros i j Hi Hj. apply (inv_live f Inv) in Hi as [_ Hi], Hj as [_ Hj]. congruence.
  - intros i Hi. now apply (inv_live f Inv) in Hi as [? _].
Qed.

(** C19: The elapsed time is a non-negative multiple of the 10 ms tick. *)
Theorem reachable_time f :
  reachable f -> mounted f = true -> time_ok (time (hooks f)).
Proof. intros Hr Hm. exact (inv_time f (reachable_inv f Hr Hm)). Qed.

(** C18: After Pause or Stop no interval is live, so no tick can fire. *)
Theorem stopped_no_tick f :
  reachable f -> mounted f = true -> running (hooks f) = false ->
  no_live_timer f /\ forall j, dispatch f (Tick j) = None.
Proof.
  intros Hr Hm Hs. pose proof (reachable_inv f Hr Hm) as Inv.
  assert (Hn : no_live_timer f).
  { intros j. destruct (live (timers f) j) eqn:Hl; [|reflexivity].
    apply (inv_live f Inv) in Hl as [Hl _]. congruence. }
  split; [exact Hn|]. intros j. unfold dispatch. now rewrite Hn.
Qed.

(** C2: Unmounting while running leaves the running interval live: the
    cleanup that React runs holds the [intervalId] of the render that
    started the interval, which was the previous id or [null]. *)
Theorem unmount_running_leaks f :
  reachable f -> mounted f = true -> running (hooks f) = true ->
  exists i f', intervalId (hooks f) = Some i /\ dispatch f Unmount = Some f' /\ leaked f' i.
Proof.
  intros Hr Hm Hs. pose proof (reachable_inv f Hr Hm) as Inv.
  destruct (inv_running_id f Inv Hs) as [i Hi].
  exists i, (unmount f). unfold dispatch. rewrite Hm. repeat split; try easy.
  unfold unmount. cbn [timers].
  rewrite effect_cleanup_dead by (intros c; apply inv_cleanup_dead, Inv).
  now apply (inv_live f Inv).
Qed.

End Reachable.

(** ** Concrete fibers on the counter-based browser *)

Definition demo_mounted : Fiber Browser := mount browser_init.
Definition demo_running : Fiber Browser :=
  commit demo_mounted (handleStart (hooks demo_mounted)).
Definition demo_paused : Fiber Browser :=
  commit demo_running (handlePause (hooks demo_running)).

Lemma demo_mounted_reachable : reachable demo_mounted.
Proof. apply reach_mount, browser_init_quiet. Qed.

Lemma demo_running_reachable : reachable demo_running.
Proof. apply (reach_step demo_mounted (Click Start)); [apply demo_mounted_reachable | reflexivity]. Qed.

Lemma demo_paused_reachable : reachable demo_paused.
Proof. apply (reach_step demo_running (Click Pause)); [apply demo_running_reachable | reflexivity]. Qed.

Lemma single_interval_witness :
  single_timer demo_running
  /\ (forall i, live (timers demo_running) i = true -> running (hooks demo_running) = true).
Proof. apply (single_interval demo_running); [exact demo_running_reachable | reflexivity]. Defined.

Lemma reachable_time_witness : time_ok (time (hooks demo_running)).
Proof. apply (reachable_time demo_running); [exact demo_running_reachable | reflexivity]. Defined.

Lemma stopped_no_tick_witness :
  no_live_timer demo_paused /\ forall j, dispatch demo_paused (Tick j) = None.
Proof.
  apply (stopped_no_tick demo_paused); [exact demo_paused_reachable | reflexivity | reflexivity].
Defined.

Lemma unmount_running_leaks_witness :
  exists i f', intervalId (hooks demo_running) = Some i /\ dispatch demo_running Unmount = Some f'
               /\ leaked f' i.
Proof.
  apply (unmount_running_leaks demo_running);
    [exact demo_running_reachable | reflexivity | reflexivity].
Defined.

