(* ===== verification/Behaviour.v ===== *)
(** * What each event does to a reachable [Stopwatch]

    Functional properties of the handlers as the runtime commits them, on
    every reachable mounted fiber, through the observables [elapsed],
    [is_running] and [lap_list]: disabled buttons do nothing
    ([disabled_clicks]); Start keeps the time, empties the laps and has a
    live interval ([start_effect]); Pause keeps the time and Stop zeroes
    it, both keep the laps, reversed by the render, and leave no live
    interval ([pause_effect], [stop_effect]); Reset zeroes the time and
    empties the laps without touching the timer ([reset_effect]); a tick
    adds 10 and reverses the array ([tick_effect]), so [n] ticks add
    [10 * n] ([ticks_add]); Lap puts the new lap in front of the reversed
    array ([lap_effect]).  On the screen, every tick redraws the lap rows
    in the reverse order ([tick_flips_rows]); every lap of a reachable
    fiber is whole hundredths ([reachable_laps_ok]), and so is the
    elapsed time the display shows ([display_exact]).  A Lap after [n]
    ticks reads the last lap of the array reversed [n] times, so the lap
    it records depends on the parity of [n] ([lap_after_ticks]). *)

From Stdlib Require Import ZArith List String Bool Lia.
From S2P Require Import Prelude Format Timers Laps Component Invariants.
Import ListNotations.
Open Scope Z_scope.

(** Two results of the same [dispatch] are the same fiber. *)
Ltac same_dispatch Hd Hg := rewrite Hd in Hg; injection Hg as <-.

Section Behaviour.
Context {T : Type} `{TimerLaws T}.
Implicit Types (f : Fiber T) (us : list Update).

(** The observables of the specification (section 3): ElapsedTime,
    RunningState and LapList, read from the hooks. *)
Definition elapsed f : Z := time (hooks f).
Definition is_running f : bool := running (hooks f).
Definition lap_list f : list Lap := laps (hooks f).

(** ** Helpers *)

Lemma dispatch_click f b :
  mounted f = true ->
  dispatch f (Click b)
  = Some (if button_disabled (screen f) b then f else commit f (handler b (hooks f))).
Proof. intros Hm. unfold dispatch. rewrite Hm. now destruct (button_disabled _ _). Qed.

Lemma disabled_of_inv f b :
  inv f -> button_disabled (screen f) b
           = match b with
             | Start => running (hooks f)
             | Reset => false
             | _ => negb (running (hooks f))
             end.
Proof. intros Hi. rewrite (inv_screen f Hi). now destruct b. Qed.

(** A tick is delivered only for a live interval. *)
Lemma dispatch_tick_live f i f' :
  dispatch f (Tick i) = Some f' -> live (timers f) i = true.
Proof. unfold dispatch. now destruct (live (timers f) i). Qed.

(** The hooks after a commit that does not run the effect. *)
Lemma hooks_commit_keep f us :
  inv f -> us <> [] -> running (apply_updates (hooks f) us) = running (hooks f) ->
  hooks (commit f us) = rendered (apply_updates (hooks f) us).
Proof.
  intros Hi Hus Hr. rewrite commit_keep; [reflexivity | assumption |].
  now rewrite (inv_deps f Hi).
Qed.

Lemma timers_commit_keep f us :
  inv f -> us <> [] -> running (apply_updates (hooks f) us) = running (hooks f) ->
  timers (commit f us) = timers f.
Proof.
  intros Hi Hus Hr. rewrite commit_keep; [reflexivity | assumption |].
  now rewrite (inv_deps f Hi).
Qed.

(** ** Buttons *)

(** C16: A disabled button does nothing: Start while running (no second
    interval, no acceleration), Pause, Stop and Lap while stopped. *)
Theorem disabled_clicks f :
  reachable f -> mounted f = true ->
  (is_running f = true -> dispatch f (Click Start) = Some f)
  /\ (is_running f = false ->
      dispatch f (Click Pause) = Some f /\ dispatch f (Click Stop) = Some f
      /\ dispatch f (Click LapButton) = Some f).
Proof.
  intros Hr Hm. pose proof (reachable_inv f Hr Hm) as Hi. unfold is_running.
  rewrite !dispatch_click, !disabled_of_inv by assumption.
  split; intros ->; repeat split.
Qed.

(** An enabled click commits its handler's batch, and the result
    satisfies [inv]. *)
Lemma click_enabled f b :
  reachable f -> mounted f = true -> button_disabled (screen f) b = false ->
  dispatch f (Click b) = Some (commit f (handler b (hooks f)))
  /\ inv (commit f (handler b (hooks f))).
Proof.
  intros Hr Hm Hb.
  assert (Hd : dispatch f (Click b) = Some (commit f (handler b (hooks f))))
    by (rewrite dispatch_click, Hb by assumption; reflexivity).
  split; [exact Hd|].
  apply reachable_inv; [eapply reach_step; eassumption|]. now rewrite mounted_commit.
Qed.

(** A batch that turns [running] off leaves the rendered batch in the
    hooks and no live interval. *)
Lemma stopping_commit f us :
  inv f -> us <> [] -> running (hooks f) = true ->
  running (apply_updates (hooks f) us) = false ->
  intervalId (apply_updates (hooks f) us) = intervalId (hooks f) ->
  time_ok (time (apply_updates (hooks f) us)) ->
  hooks (commit f us) = rendered (apply_updates (hooks f) us) /\ no_live_timer (commit f us).
Proof.
  intros Hi Hus Hrun Hr Hid Ht.
  pose proof (inv_commit_stop f us Hi Hus Hrun Hr Hid Ht) as Hi'.
  rewrite commit_stop in Hi' |- * by (try rewrite (inv_deps f Hi); assumption).
  split; [reflexivity|]. intros j.
  match goal with |- live ?t j = false => destruct (live t j) eqn:Hl; [|reflexivity] end.
  apply (inv_live _ Hi') in Hl as [Hl _]. cbn [hooks] in Hl.
  now rewrite rendered_running, Hr in Hl.
Qed.

(** C14: Stop: the time is 0, [running] is false, no interval is live, and
    the laps stay, reversed in place by the render. *)
Theorem stop_effect f :
  reachable f -> mounted f = true -> is_running f = true ->
  exists f', dispatch f (Click Stop) = Some f'
    /\ elapsed f' = 0 /\ is_running f' = false /\ lap_list f' = rev (lap_list f)
    /\ no_live_timer f'.
Proof.
  unfold elapsed, is_running, lap_list. intros Hr Hm Hrun.
  pose proof (reachable_inv f Hr Hm) as Hi.
  destruct (click_enabled f Stop Hr Hm) as [Hd _];
    [now rewrite (disabled_of_inv f Stop Hi), Hrun|].
  destruct (stopping_commit f (handler Stop (hooks f)) Hi) as [Hh Hn]; try easy.
  eexists; split; [exact Hd|]. rewrite Hh.
  rewrite rendered_time, rendered_running, rendered_laps. repeat split. exact Hn.
Qed.

(** Pause: the time stays, [running] is false, no interval is live, and
    the laps stay, reversed in place by the render. *)
Lemma pause_effect f :
  reachable f -> mounted f = true -> is_running f = true ->
  exists f', dispatch f (Click Pause) = Some f'
    /\ elapsed f' = elapsed f /\ is_running f' = false /\ lap_list f' = rev (lap_list f)
    /\ no_live_timer f'.
Proof.
  unfold elapsed, is_running, lap_list. intros Hr Hm Hrun.
  pose proof (reachable_inv f Hr Hm) as Hi.
  destruct (click_enabled f Pause Hr Hm) as [Hd _];
    [now rewrite (disabled_of_inv f Pause Hi), Hrun|].
  destruct (stopping_commit f (handler Pause (hooks f)) Hi) as [Hh Hn]; try easy;
    [exact (inv_time f Hi)|].
  eexists; split; [exact Hd|]. rewrite Hh.
  rewrite rendered_time, rendered_running, rendered_laps. repeat split. exact Hn.
Qed.

(** A batch that turns [running] on: the hooks of the batch with the new
    id, rendered twice, and [inv] holds after it. *)
Lemma starting_commit f us :
  inv f -> us <> [] -> running (hooks f) = false ->
  running (apply_updates (hooks f) us) = true ->
  intervalId (apply_updates (hooks f) us) = intervalId (hooks f) ->
  time_ok (time (apply_updates (hooks f) us)) ->
  time (hooks (commit f us)) = time (apply_updates (hooks f) us)
  /\ running (hooks (commit f us)) = true
  /\ laps (hooks (commit f us)) = laps (apply_updates (hooks f) us)
  /\ inv (commit f us).
Proof.
  intros Hi Hus Hrun Hr Hid Ht.
  pose proof (inv_commit_start f us Hi Hus Hrun Hr Hid Ht) as Hi'.
  pose proof (commit_start f us Hus Hr ltac:(now rewrite (inv_deps f Hi))) as Hc.
  destruct (set_interval _) as [id tm]. rewrite Hc in Hi' |- *.
  refine (conj _ (conj _ (conj _ Hi'))); cbn [hooks];
    rewrite ?rendered_time, ?rendered_running, ?rendered_laps;
    cbn [apply_update time running laps];
    rewrite ?rendered_time, ?rendered_running, ?rendered_laps, ?rev_involutive; auto.
Qed.

(** Start: the time stays, [running] is true, the lap array is a new
    empty one, and the interval in [intervalId] is live. *)
Lemma start_effect f :
  reachable f -> mounted f = true -> is_running f = false ->
  exists f', dispatch f (Click Start) = Some f'
    /\ elapsed f' = elapsed f /\ is_running f' = true /\ lap_list f' = []
    /\ exists i, intervalId (hooks f') = Some i /\ live (timers f') i = true.
Proof.
  unfold elapsed, is_running, lap_list. intros Hr Hm Hrun.
  pose proof (reachable_inv f Hr Hm) as Hi.
  destruct (click_enabled f Start Hr Hm) as [Hd _];
    [now rewrite (disabled_of_inv f Start Hi), Hrun|].
  destruct (starting_commit f (handler Start (hooks f)) Hi) as (Ht & Hr' & Hl & Hi');
    try easy; [exact (inv_time f Hi)|].
  eexists; split; [exact Hd|]. rewrite Ht, Hr', Hl. repeat split.
  destruct (inv_running_id _ Hi' Hr') as [i Hid].
  exists i. split; [exact Hid|]. now apply (inv_live _ Hi').
Qed.

(** C15: Reset: the time is 0 and the lap array a new empty one, whether or
    not the stopwatch runs; [running], [intervalId] and the timers stay. *)
Theorem reset_effect f :
  reachable f -> mounted f = true ->
  exists f', dispatch f (Click Reset) = Some f'
    /\ elapsed f' = 0 /\ lap_list f' = [] /\ is_running f' = is_running f
    /\ intervalId (hooks f') = intervalId (hooks f) /\ timers f' = timers f.
Proof.
  unfold elapsed, is_running, lap_list. intros Hr Hm. pose proof (reachable_inv f Hr Hm) as Hi.
  destruct (click_enabled f Reset Hr Hm) as [Hd _]; [now rewrite (disabled_of_inv f Reset Hi)|].
  eexists; split; [exact Hd|].
  rewrite timers_commit_keep, hooks_commit_keep by easy.
  rewrite rendered_time, rendered_laps, rendered_running, rendered_intervalId.
  repeat split.
Qed.

(** A tick of a live interval while mounted: 10 more milliseconds, and the
    render reverses the lap array again. *)
Theorem tick_effect f i :
  reachable f -> mounted f = true -> live (timers f) i = true ->
  exists f', dispatch f (Tick i) = Some f'
    /\ time (hooks f') = time (hooks f) + 10 /\ laps (hooks f') = rev (laps (hooks f))
    /\ running (hooks f') = running (hooks f) /\ timers f' = timers f
    /\ reachable f' /\ mounted f' = true.
Proof.
  intros Hr Hm Hl. pose proof (reachable_inv f Hr Hm) as Hi.
  assert (Hd : dispatch f (Tick i) = Some (commit f tick_callback))
    by (unfold dispatch; now rewrite Hl, Hm).
  eexists; split; [exact Hd|].
  rewrite timers_commit_keep, hooks_commit_keep by easy.
  rewrite rendered_time, rendered_laps, rendered_running, mounted_commit.
  repeat split; try assumption. eapply reach_step; eassumption.
Qed.

(** [n] ticks: [10 n] more milliseconds, and the array reversed once per
    render, so reversed exactly when [n] is odd. *)
Lemma ticks_effect f i n :
  reachable f -> mounted f = true -> live (timers f) i = true ->
  exists f', run f (repeat (Tick i) n) = Some f'
    /\ elapsed f' = elapsed f + 10 * Z.of_nat n
    /\ lap_list f' = (if Nat.even n then lap_list f else rev (lap_list f))
    /\ is_running f' = is_running f
    /\ reachable f' /\ mounted f' = true /\ live (timers f') i = true.
Proof.
  unfold elapsed, lap_list, is_running. revert f; induction n as [|n IH]; intros f Hr Hm Hl.
  - exists f. repeat split; auto. lia.
  - destruct (tick_effect f i Hr Hm Hl) as (f1 & Hd & Ht & El & Er & Htm & Hr1 & Hm1).
    destruct (IH f1 Hr1 Hm1 ltac:(now rewrite Htm)) as (f' & Hrun & Ht' & El' & Er' & Rest).
    exists f'. cbn [repeat run]. rewrite Hd. split; [exact Hrun|]. split; [lia|].
    rewrite Nat.even_succ, <- Nat.negb_even, El', El.
    split; [destruct (Nat.even n); cbn; now rewrite ?rev_involutive|]. split; [congruence|].
    exact Rest.
Qed.

(** Running two event lists one after the other. *)
Lemma run_app f es1 es2 :
  run f (es1 ++ es2) = match run f es1 with Some g => run g es2 | None => None end.
Proof.
  revert f; induction es1 as [|e es1 IH]; intros f; [reflexivity|].
  cbn [app run]. destruct (dispatch f e); [apply IH | reflexivity].
Qed.

(** C17: [n] ticks of the live interval add [10 * n] milliseconds (spec
    section 8: after N ticks the elapsed time is 10 N). *)
Theorem ticks_add f i n :
  reachable f -> mounted f = true -> live (timers f) i = true ->
  exists f', run f (repeat (Tick i) n) = Some f' /\ elapsed f' = elapsed f + 10 * Z.of_nat n.
Proof.
  intros Hr Hm Hl. destruct (ticks_effect f i n Hr Hm Hl) as (f' & Hrun & Ht & _). eauto.
Qed.

(** The rows a screen shows for a non-empty array. *)
Lemma lap_rows_view h :
  (0 < List.length (laps h))%nat -> lap_rows (view h) = Some (renderRows (laps h)).
Proof. intros Hn. cbn [view lap_rows]. now destruct (Nat.ltb_spec 0 (List.length (laps h))); [|lia]. Qed.

(** The lap rows on the screen of a reachable mounted fiber are drawn
    from its array. *)
Lemma screen_rows f :
  reachable f -> mounted f = true -> (0 < List.length (lap_list f))%nat ->
  lap_rows (screen f) = Some (renderRows (lap_list f)).
Proof. intros Hr Hm Hn. rewrite (inv_screen f (reachable_inv f Hr Hm)). now apply lap_rows_view. Qed.

(** C10: Every tick of the running interval redraws the lap list in the
    reverse order: the render reverses the array in place, so the rows
    flip between newest first and oldest first every 10 ms (spec section
    4.3 shows them newest first). *)
Theorem tick_flips_rows f i :
  reachable f -> mounted f = true -> live (timers f) i = true ->
  (0 < List.length (lap_list f))%nat ->
  exists f', dispatch f (Tick i) = Some f'
    /\ lap_rows (screen f) = Some (renderRows (lap_list f))
    /\ lap_rows (screen f') = Some (renderRows (rev (lap_list f))).
Proof.
  intros Hr Hm Hl Hn.
  destruct (tick_effect f i Hr Hm Hl) as (f' & Hd & _ & El & _ & _ & Hr' & Hm').
  exists f'. split; [exact Hd|]. split; [now apply screen_rows|].
  assert (E : lap_list f' = rev (lap_list f)) by exact El.
  rewrite screen_rows, E by (rewrite ?E, ?length_rev; assumption). reflexivity.
Qed.

(** One Lap click while running. *)
Lemma lap_step f :
  reachable f -> mounted f = true -> is_running f = true ->
  exists f', dispatch f (Click LapButton) = Some f'
    /\ lap_list f' = newLap (elapsed f) (lap_list f) :: rev (lap_list f)
    /\ elapsed f' = elapsed f /\ is_running f' = true.
Proof.
  unfold elapsed, is_running, lap_list. intros Hr Hm Hrun. pose proof (reachable_inv f Hr Hm) as Hi.
  destruct (click_enabled f LapButton Hr Hm) as [Hd _];
    [now rewrite (disabled_of_inv f LapButton Hi), Hrun|].
  eexists; split; [exact Hd|].
  rewrite hooks_commit_keep by easy.
  rewrite rendered_laps, rendered_time, rendered_running.
  cbn [handler handleLap apply_updates fold_left apply_update laps time running appendLap].
  unfold appendLap. rewrite rev_app_distr. repeat split; assumption.
Qed.

(** C8: Lap while running: the new lap, computed from the array as the last
    render left it, goes to the front of the array, because the render
    reverses [[...laps, lap]] in place. *)
Theorem lap_effect f :
  reachable f -> mounted f = true -> is_running f = true ->
  exists f', dispatch f (Click LapButton) = Some f'
    /\ lap_list f' = newLap (elapsed f) (lap_list f) :: rev (lap_list f)
    /\ elapsed f' = elapsed f /\ is_running f' = true.
Proof. apply lap_step. Qed.

(** C20: In every reachable fiber, mounted or not, each lap of the array
    has a [time] and a [difference] that are multiples of 10 ms, so the
    hundredths that [formatTime] shows for a lap are exact. *)
Theorem reachable_laps_ok f : reachable f -> Forall lap_ok (lap_list f).
Proof.
  induction 1 as [tm Hq | f e f' Hr IH Hd]; [rewrite mount_eq; constructor|].
  destruct (mounted f) eqn:Hm; [|now rewrite (dispatch_unmounted f e f' Hm Hd)].
  pose proof (inv_time f (reachable_inv f Hr Hm)) as [_ Ht].
  pose proof (disabled_clicks f Hr Hm) as [Dstart Dstop].
  destruct e as [b|i|].
  - destruct b, (is_running f) eqn:Er;
      try (rewrite (Dstart eq_refl) in Hd || rewrite (proj1 (Dstop eq_refl)) in Hd
           || rewrite (proj1 (proj2 (Dstop eq_refl))) in Hd
           || rewrite (proj2 (proj2 (Dstop eq_refl))) in Hd;
           injection Hd as <-; exact IH).
    + destruct (start_effect f Hr Hm Er) as (g & Hg & _ & _ & El & _).
      same_dispatch Hd Hg. rewrite El. constructor.
    + destruct (pause_effect f Hr Hm Er) as (g & Hg & _ & _ & El & _).
      same_dispatch Hd Hg. rewrite El. now apply Forall_rev.
    + destruct (stop_effect f Hr Hm Er) as (g & Hg & _ & _ & El & _).
      same_dispatch Hd Hg. rewrite El. now apply Forall_rev.
    + destruct (reset_effect f Hr Hm) as (g & Hg & _ & El & _).
      same_dispatch Hd Hg. rewrite El. constructor.
    + destruct (reset_effect f Hr Hm) as (g & Hg & _ & El & _).
      same_dispatch Hd Hg. rewrite El. constructor.
    + destruct (lap_effect f Hr Hm Er) as (g & Hg & El & _).
      same_dispatch Hd Hg. rewrite El.
      constructor; [now apply newLap_ok | now apply Forall_rev].
  - destruct (tick_effect f i Hr Hm (dispatch_tick_live f i f' Hd)) as (g & Hg & _ & El & _).
    same_dispatch Hd Hg. unfold lap_list. rewrite El. now apply Forall_rev.
  - unfold dispatch in Hd. rewrite Hm in Hd. injection Hd as <-. exact IH.
Qed.

(** C21: The display of a reachable mounted fiber reads back, as
    [HH:MM:SS.ff], as exactly the elapsed time in hundredths: nothing is
    lost to the truncation of the milliseconds field. *)
Theorem display_exact f :
  reachable f -> mounted f = true ->
  exists n, parse_time (display (screen f)) = Some n /\ elapsed f = 10 * n.
Proof.
  intros Hr Hm. pose proof (reachable_inv f Hr Hm) as Hi.
  pose proof (inv_time f Hi) as [H0 H10].
  exists (elapsed f / 10). rewrite (inv_screen f Hi). cbn [view display].
  split; [now apply parse_formatTime | unfold elapsed; divmod_lia].
Qed.

(** C9: [n] ticks then a Lap: the render reverses the array once per tick,
    so [handleLap] reads [laps[laps.length - 1]] from the array reversed
    when [n] is odd: the new lap subtracts the [time] of the newest or of
    the oldest lap depending on the parity of [n], and the array after it
    is the new lap followed by that array reversed. *)
Theorem lap_after_ticks f i n :
  reachable f -> mounted f = true -> live (timers f) i = true ->
  let L := if Nat.even n then lap_list f else rev (lap_list f) in
  let lt := last (map Lap.time L) 0 in
  let t := elapsed f + 10 * Z.of_nat n in
  exists f', run f (repeat (Tick i) n ++ [Click LapButton]) = Some f'
    /\ lap_list f' = Lap.mk (t - lt) (t - 2 * lt) :: rev L.
Proof.
  intros Hr Hm Hl L lt t.
  pose proof (proj1 (inv_live f (reachable_inv f Hr Hm) i) Hl) as [Hrun _].
  destruct (ticks_effect f i n Hr Hm Hl) as (g & Hg & Ht & El & Er & Hrg & Hmg & _).
  destruct (lap_step g Hrg Hmg ltac:(unfold is_running in *; congruence)) as (f' & Hd & Hl' & _).
  exists f'. rewrite run_app, Hg. cbn [run]. rewrite Hd. split; [reflexivity|].
  rewrite Hl', Ht, El. fold L. unfold newLap. rewrite lastLapTime_last. fold lt t.
  f_equal. f_equal. lia.
Qed.
End Behaviour.

(** ** Concrete runs *)

Lemma disabled_clicks_witness :
  (is_running demo_running = true -> dispatch demo_running (Click Start) = Some demo_running)
  /\ (is_running demo_running = false ->
      dispatch demo_running (Click Pause) = Some demo_running
      /\ dispatch demo_running (Click Stop) = Some demo_running
      /\ dispatch demo_running (Click LapButton) = Some demo_running).
Proof. apply (disabled_clicks demo_running); [exact demo_running_reachable | reflexivity]. Defined.

Lemma stop_effect_witness :
  exists f', dispatch demo_running (Click Stop) = Some f'
    /\ elapsed f' = 0 /\ is_running f' = false /\ lap_list f' = rev (lap_list demo_running)
    /\ no_live_timer f'.
Proof.
  apply (stop_effect demo_running); [exact demo_running_reachable | reflexivity | reflexivity].
Defined.

Lemma reset_effect_witness :
  exists f', dispatch demo_running (Click Reset) = Some f'
    /\ elapsed f' = 0 /\ lap_list f' = [] /\ is_running f' = is_running demo_running
    /\ intervalId (hooks f') = intervalId (hooks demo_running)
    /\ timers f' = timers demo_running.
Proof. apply (reset_effect demo_running); [exact demo_running_reachable | reflexivity]. Defined.

Lemma ticks_add_witness :
  exists f', run demo_running (repeat (Tick 1) 5) = Some f'
    /\ elapsed f' = elapsed demo_running + 10 * Z.of_nat 5.
Proof.
  apply (ticks_add demo_running 1 5); [exact demo_running_reachable | reflexivity | reflexivity].
Defined.

Lemma lap_effect_witness :
  exists f', dispatch demo_running (Click LapButton) = Some f'
    /\ lap_list f' = newLap (elapsed demo_running) (lap_list demo_running)
                      :: rev (lap_list demo_running)
    /\ elapsed f' = elapsed demo_running /\ is_running f' = true.
Proof.
  apply (lap_effect demo_running); [exact demo_running_reachable | reflexivity | reflexivity].
Defined.

(** Two laps, at 10 and 20 ms. *)
Definition demo_lapped : Fiber Browser :=
  match run demo_running [Tick 1; Click LapButton; Tick 1; Click LapButton] with
  | Some f => f
  | None => demo_running
  end.

Lemma demo_lapped_reachable : reachable demo_lapped.
Proof.
  apply (reachable_run demo_running [Tick 1; Click LapButton; Tick 1; Click LapButton]);
    [exact demo_running_reachable | vm_compute; reflexivity].
Qed.

Lemma reachable_laps_ok_witness : Forall lap_ok (lap_list demo_lapped).
Proof. apply (reachable_laps_ok demo_lapped). exact demo_lapped_reachable. Defined.

Lemma display_exact_witness :
  exists n, parse_time (display (screen demo_lapped)) = Some n /\ elapsed demo_lapped = 10 * n.
Proof. apply (display_exact demo_lapped); [exact demo_lapped_reachable | reflexivity]. Defined.

Lemma lap_after_ticks_witness :
  let L := if Nat.even 1 then lap_list demo_lapped else rev (lap_list demo_lapped) in
  let lt := last (map Lap.time L) 0 in
  let t := elapsed demo_lapped + 10 * Z.of_nat 1 in
  exists f', run demo_lapped (repeat (Tick 1) 1 ++ [Click LapButton]) = Some f'
    /\ lap_list f' = Lap.mk (t - lt) (t - 2 * lt) :: rev L.
Proof.
  apply (lap_after_ticks demo_lapped 1 1);
    [exact demo_lapped_reachable | reflexivity | vm_compute; reflexivity].
Defined.

Lemma tick_flips_rows_witness :
  exists f', dispatch demo_lapped (Tick 1) = Some f'
    /\ lap_rows (screen demo_lapped) = Some (renderRows (lap_list demo_lapped))
    /\ lap_rows (screen f') = Some (renderRows (rev (lap_list demo_lapped))).
Proof.
  apply (tick_flips_rows demo_lapped 1);
    [exact demo_lapped_reachable | vm_compute; reflexivity | vm_compute; reflexivity
    | vm_compute; lia].
Defined.

