(* ===== verification/Refinement.v ===== *)
(** * The component against the abstract stopwatch of the specification

    [Spec] is the timing engine of spec section 4.1 as a machine on the
    triple (ElapsedTime, RunningState, LapList): five buttons with the
    guards of the section's state table and a tick that is enabled only
    while running.  [abstracts f s] relates a fiber of [Component] to a
    state of it by the elapsed time, the running flag and the number of
    laps.  Every run of the component from a fresh mount that has no
    unmount is matched, event by event, by a run of [Spec]
    ([code_refines_spec]), and every run of [Spec] is produced by some run
    of the component ([spec_refined_by_code]).  The lap contents are not
    part of the relation: they depend on how many renders reversed the
    array ([Behaviour.lap_after_ticks]), which the specification does not
    have. *)

From Stdlib Require Import ZArith List Bool Lia.
From S2P Require Import Prelude Timers Laps Component Invariants Behaviour.
Import ListNotations.
Open Scope Z_scope.

(** ** The abstract machine of spec section 4.1 *)

Module Spec.

Record State := mkState {
  s_elapsed : Z;
  s_running : bool;
  s_laps : list Lap
}.

Inductive Op := SStart | SPause | SStop | SReset | SLap | STick.

(** ElapsedTime is 0 and the LapList empty after construction. *)
Definition init : State := mkState 0 false [].

(** [lastLapTime] is the [time] of the most recent lap, or 0;
    [lapTime = ElapsedTime - lastLapTime] and
    [difference = lapTime - lastLapTime]. *)
Definition spec_lap (s : State) : Lap :=
  let lastLapTime := match rev (s_laps s) with [] => 0 | l :: _ => Lap.time l end in
  let lapTime := s_elapsed s - lastLapTime in
  Lap.mk lapTime (lapTime - lastLapTime).

(** A disabled button is a no-op; a tick is not enabled while stopped. *)
Definition step (s : State) (o : Op) : option State :=
  match o with
  | SStart => Some (if s_running s then s else mkState (s_elapsed s) true [])
  | SPause => Some (if s_running s then mkState (s_elapsed s) false (s_laps s) else s)
  | SStop => Some (if s_running s then mkState 0 false (s_laps s) else s)
  | SReset => Some (mkState 0 (s_running s) [])
  | SLap => Some (if s_running s then mkState (s_elapsed s) true (s_laps s ++ [spec_lap s])
                  else s)
  | STick => if s_running s then Some (mkState (s_elapsed s + 10) true (s_laps s)) else None
  end.

Fixpoint exec (s : State) (ops : list Op) : option State :=
  match ops with
  | [] => Some s
  | o :: rest => match step s o with Some s' => exec s' rest | None => None end
  end.

End Spec.

Import Spec.

(** ** The abstraction *)

Definition op_of_button (b : Button) : Op :=
  match b with
  | Start => SStart
  | Pause => SPause
  | Stop => SStop
  | Reset => SReset
  | LapButton => SLap
  end.

(** Clicks and ticks are operations of the specification; unmounting the
    widget is outside it. *)
Definition abs_event (e : Event) : option Op :=
  match e with
  | Click b => Some (op_of_button b)
  | Tick _ => Some STick
  | Unmount => None
  end.

Section Refinement.
Context {T : Type} `{TimerLaws T}.
Implicit Types (f : Fiber T) (s : State).

Definition abstracts f s : Prop :=
  elapsed f = s_elapsed s /\ is_running f = s_running s
  /\ List.length (lap_list f) = List.length (s_laps s).

Definition matches (es : list Event) (ops : list Op) : Prop :=
  Forall2 (fun e o => abs_event e = Some o) es ops.

(** ** One step *)

Lemma dispatch_mounted f e o f' :
  mounted f = true -> abs_event e = Some o -> dispatch f e = Some f' -> mounted f' = true.
Proof.
  intros Hm Ho Hd. destruct e as [b|i|]; [| |discriminate]; unfold dispatch in Hd; rewrite Hm in Hd.
  - destruct (button_disabled _ _); injection Hd as <-; now rewrite ?mounted_commit.
  - destruct (live _ _); [|discriminate]. injection Hd as <-. now rewrite mounted_commit.
Qed.

(** The three observables of a fiber and of the state it is matched with
    agree; [Hl] is the lap count. *)
Ltac abs_close :=
  unfold abstracts; cbn [s_elapsed s_running s_laps];
  repeat match goal with
         | E : elapsed ?g = _ |- context [elapsed ?g] => rewrite E
         | E : is_running ?g = _ |- context [is_running ?g] => rewrite E
         | E : lap_list ?g = _ |- context [lap_list ?g] => rewrite E
         end;
  repeat split; try congruence;
  cbn [List.length]; rewrite ?length_rev, ?length_app; cbn [List.length]; lia.

Lemma click_sim f s b :
  reachable f -> mounted f = true -> abstracts f s ->
  exists f' s', dispatch f (Click b) = Some f' /\ step s (op_of_button b) = Some s'
    /\ abstracts f' s'.
Proof.
  intros Hr Hm Hs. pose proof Hs as (He & Hrun & Hl).
  pose proof (disabled_clicks f Hr Hm) as [Dstart Dstop].
  assert (Hstay : dispatch f (Click b) = Some f -> step s (op_of_button b) = Some s ->
                  exists f' s', dispatch f (Click b) = Some f'
                    /\ step s (op_of_button b) = Some s' /\ abstracts f' s')
    by (intros; exists f, s; auto).
  destruct b, (is_running f) eqn:Er;
    try (apply Hstay; [now apply Dstart || apply Dstop | cbn; now rewrite <- Hrun]).
  - destruct (start_effect f Hr Hm Er) as (f' & Hd & E1 & E2 & E3 & _).
    exists f', (mkState (s_elapsed s) true []). split; [exact Hd|]. split; [cbn; now rewrite <- Hrun|]. abs_close.
  - destruct (pause_effect f Hr Hm Er) as (f' & Hd & E1 & E2 & E3 & _).
    exists f', (mkState (s_elapsed s) false (s_laps s)). split; [exact Hd|].
    split; [cbn; now rewrite <- Hrun|]. abs_close.
  - destruct (stop_effect f Hr Hm Er) as (f' & Hd & E1 & E2 & E3 & _).
    exists f', (mkState 0 false (s_laps s)). split; [exact Hd|]. split; [cbn; now rewrite <- Hrun|]. abs_close.
  - destruct (reset_effect f Hr Hm) as (f' & Hd & E1 & E3 & E2 & _).
    exists f', (mkState 0 true []). split; [exact Hd|]. split; [cbn; now rewrite <- Hrun|]. abs_close.
  - destruct (reset_effect f Hr Hm) as (f' & Hd & E1 & E3 & E2 & _).
    exists f', (mkState 0 false []). split; [exact Hd|]. split; [cbn; now rewrite <- Hrun|]. abs_close.
  - destruct (lap_effect f Hr Hm Er) as (f' & Hd & E3 & E1 & E2).
    exists f', (mkState (s_elapsed s) true (s_laps s ++ [spec_lap s])). split; [exact Hd|].
    split; [cbn; now rewrite <- Hrun|]. abs_close.
Qed.

Lemma tick_sim f s i :
  reachable f -> mounted f = true -> abstracts f s -> live (timers f) i = true ->
  exists f' s', dispatch f (Tick i) = Some f' /\ step s STick = Some s' /\ abstracts f' s'.
Proof.
  intros Hr Hm Hs Hl. pose proof Hs as (He & Hrun & Hn).
  pose proof (proj1 (inv_live f (reachable_inv f Hr Hm) i) Hl) as [Er _].
  destruct (tick_effect f i Hr Hm Hl) as (f' & Hd & Et & El & E2 & _).
  assert (E1 : elapsed f' = elapsed f + 10) by exact Et.
  assert (E3 : List.length (lap_list f') = List.length (lap_list f))
    by (unfold lap_list; now rewrite El, length_rev).
  exists f', (mkState (s_elapsed s + 10) true (s_laps s)). split; [exact Hd|].
  split; [cbn; rewrite <- Hrun; unfold is_running; now rewrite Er|].
  assert (E4 : is_running f' = true) by (unfold is_running; congruence). abs_close.
Qed.

(** Forward: a step of the component is a step of [Spec]. *)
Lemma step_sim f s e o f' :
  reachable f -> mounted f = true -> abstracts f s -> abs_event e = Some o ->
  dispatch f e = Some f' -> exists s', step s o = Some s' /\ abstracts f' s'.
Proof.
  intros Hr Hm Hs Ho Hd. destruct e as [b|i|]; try discriminate; injection Ho as <-.
  - destruct (click_sim f s b Hr Hm Hs) as (g & s' & Hg & Hst & Ha).
    same_dispatch Hd Hg. eauto.
  - destruct (tick_sim f s i Hr Hm Hs (dispatch_tick_live f i f' Hd)) as (g & s' & Hg & Hst & Ha).
    same_dispatch Hd Hg. eauto.
Qed.

(** Backward: a step of [Spec] is taken by some event of the component. *)
Lemma step_complete f s o s' :
  reachable f -> mounted f = true -> abstracts f s -> step s o = Some s' ->
  exists e f', abs_event e = Some o /\ dispatch f e = Some f' /\ abstracts f' s'.
Proof.
  intros Hr Hm Hs Hst.
  assert (Hb : forall b, o = op_of_button b ->
            exists e f', abs_event e = Some o /\ dispatch f e = Some f' /\ abstracts f' s').
  { intros b ->. destruct (click_sim f s b Hr Hm Hs) as (f' & s'' & Hd & Hs' & Ha).
    rewrite Hst in Hs'. injection Hs' as <-. exists (Click b), f'. auto. }
  destruct o; [apply (Hb Start) | apply (Hb Pause) | apply (Hb Stop) | apply (Hb Reset)
              | apply (Hb LapButton) | ]; try reflexivity.
  pose proof (reachable_inv f Hr Hm) as Hi. pose proof Hs as (_ & Hrun & _).
  cbn in Hst. destruct (s_running s) eqn:Er; [|discriminate].
  destruct (inv_running_id f Hi Hrun) as [i Hid].
  assert (Hl : live (timers f) i = true) by (apply (inv_live f Hi); auto).
  destruct (tick_sim f s i Hr Hm Hs Hl) as (f' & s'' & Hd & Hs' & Ha).
  cbn in Hs'. rewrite Er in Hs'. rewrite Hst in Hs'. injection Hs' as <-.
  exists (Tick i), f'. auto.
Qed.

(** ** Runs *)

Lemma run_sim f s es ops f' :
  reachable f -> mounted f = true -> abstracts f s -> matches es ops ->
  run f es = Some f' -> exists s', Spec.exec s ops = Some s' /\ abstracts f' s'.
Proof.
  intros Hr Hm Hs Hes. revert f s Hr Hm Hs.
  induction Hes as [|e o es ops Ho _ IH]; intros f s Hr Hm Hs Hrun; cbn in Hrun |- *.
  - injection Hrun as <-. eauto.
  - destruct (dispatch f e) as [g|] eqn:Hd; [|discriminate].
    destruct (step_sim f s e o g Hr Hm Hs Ho Hd) as (s1 & -> & Hs1).
    eapply IH; [eapply reach_step; eassumption | eapply dispatch_mounted; eassumption | ..];
      eassumption.
Qed.

Lemma run_sim_complete f s ops s' :
  reachable f -> mounted f = true -> abstracts f s -> Spec.exec s ops = Some s' ->
  exists es f', matches es ops /\ run f es = Some f' /\ abstracts f' s'.
Proof.
  revert f s. induction ops as [|o ops IH]; intros f s Hr Hm Hs Hrun; cbn in Hrun.
  - injection Hrun as <-. exists [], f. split; [constructor | auto].
  - destruct (step s o) as [s1|] eqn:Hst; [|discriminate].
    destruct (step_complete f s o s1 Hr Hm Hs Hst) as (e & g & Ho & Hd & Hs1).
    destruct (IH g s1 (reach_step f e g Hr Hd) (dispatch_mounted f e o g Hm Ho Hd) Hs1 Hrun)
      as (es & f' & Hes & Hr' & Ha).
    exists (e :: es), f'. split; [now constructor|]. cbn. now rewrite Hd.
Qed.

Lemma mount_abstracts tm : abstracts (mount tm) init.
Proof. unfold abstracts. now rewrite mount_eq. Qed.

End Refinement.

(** ** Refinement from a fresh mount *)

Section FromMount.
Context {T : Type} `{TimerLaws T}.

(** C3: Every run of the component from a fresh mount, with no unmount,
    is a run of the specification's machine on the same operations, and
    ends in a state with the same elapsed time, running flag and number
    of laps. *)
Theorem code_refines_spec (tm : T) es ops f' :
  (forall j, live tm j = false) -> matches es ops -> run (mount tm) es = Some f' ->
  exists s', Spec.exec init ops = Some s' /\ abstracts f' s'.
Proof.
  intros Hq Hes Hrun.
  exact (run_sim (mount tm) init es ops f' (reach_mount tm Hq) eq_refl (mount_abstracts tm)
           Hes Hrun).
Qed.

(** C4: Every run of the specification's machine is taken by the
    component from a fresh mount: each button by its click, each tick by
    a tick of the live interval, to a fiber with the same elapsed time,
    running flag and number of laps. *)
Theorem spec_refined_by_code (tm : T) ops s' :
  (forall j, live tm j = false) -> Spec.exec init ops = Some s' ->
  exists es f', matches es ops /\ run (mount tm) es = Some f' /\ abstracts f' s'.
Proof.
  intros Hq Hrun.
  exact (run_sim_complete (mount tm) init ops s' (reach_mount tm Hq) eq_refl
           (mount_abstracts tm) Hrun).
Qed.
End FromMount.

(** ** Concrete runs *)

(** Laps at 1000, 2500 and 4000 ms. *)
Definition demo_script : list Event :=
  [Click Start] ++ repeat (Tick 1) 100 ++ [Click LapButton]
  ++ repeat (Tick 1) 150 ++ [Click LapButton]
  ++ repeat (Tick 1) 150 ++ [Click LapButton].

Definition demo_ops : list Op :=
  [SStart] ++ repeat STick 100 ++ [SLap] ++ repeat STick 150 ++ [SLap]
  ++ repeat STick 150 ++ [SLap].

Definition demo_end : Fiber Browser :=
  match run demo_mounted demo_script with Some f => f | None => demo_mounted end.

Definition demo_spec_end : State :=
  match Spec.exec init demo_ops with Some s => s | None => init end.

Lemma demo_matches : matches demo_script demo_ops.
Proof. unfold matches. vm_compute. repeat constructor. Qed.

Lemma code_refines_spec_witness :
  exists s', Spec.exec init demo_ops = Some s' /\ abstracts demo_end s'.
Proof.
  apply (code_refines_spec browser_init demo_script demo_ops demo_end);
    [exact browser_init_quiet | exact demo_matches | vm_compute; reflexivity].
Defined.

Lemma spec_refined_by_code_witness :
  exists es f', matches es demo_ops /\ run (mount browser_init) es = Some f'
    /\ abstracts f' demo_spec_end.
Proof.
  apply (spec_refined_by_code browser_init demo_ops demo_spec_end);
    [exact browser_init_quiet | vm_compute; reflexivity].
Defined.

