(* ===== verification/Page.v ===== *)
(** * Several [Stopwatch] instances on one page

    A page can render the component more than once, and mount it again
    after unmounting it; all instances share the browser's timer table
    (Watch.tsx lines 16-25 call the global [setInterval] and
    [clearInterval]).  [Shared] is that table with, for each interval
    id, the instance whose effect created it: the browser runs the
    callback registered with an id, which is the closure over that
    instance's [setTime].  [View] is one instance's view of the table, a
    [TimerLaws] instance, so [Component] runs each instance unchanged.
    [page_step] routes clicks and unmounts to their instance and a tick
    of interval [i] to the instance that owns [i]; [PMount] mounts a new
    instance.

    Results: an event of one instance leaves every other instance's
    state and view of the timers untouched ([page_isolation], spec
    section 5: no cross-instance sharing); every live interval on the
    page is the running interval of a mounted instance or one left by an
    unmounted instance ([page_intervals]); and such an interval, left by
    unmounting a running instance, stays live whatever the page does
    next ([page_leak_permanent]). *)

From stdpp Require Import base gmap list.
From Stdlib Require Import PArith Lia Bool.
From S2P Require Import Prelude Timers Component Invariants.

(** ** One instance's view of the shared table *)

Section View.
Context {T : Type} `{TimerLaws T}.

Record Shared := mkShared { base : T; owner : gmap positive nat }.

(** The table seen by instance [snd v]. *)
Definition View : Type := Shared * nat.

Definition owned_by (s : Shared) (k : nat) (j : positive) : bool :=
  bool_decide (owner s !! j = Some k).

#[export] Instance view_api : TimerApi View := {
  set_interval v :=
    let r := set_interval (base v.1) in
    (r.1, (mkShared r.2 (<[r.1 := v.2]> (owner v.1)), v.2));
  clear_interval i v := (mkShared (clear_interval i (base v.1)) (owner v.1), v.2);
  live v j := live (base v.1) j && owned_by v.1 v.2 j;
  issued v j := issued (base v.1) j && owned_by v.1 v.2 j
}.

Lemma owned_by_insert s t k id k' j :
  owned_by (mkShared t (<[id := k]> (owner s))) k' j
  = if Pos.eqb j id then Nat.eqb k k' else owned_by s k' j.
Proof.
  unfold owned_by. cbn [owner]. destruct (Pos.eqb_spec j id) as [->|Hne].
  - rewrite lookup_insert_eq. destruct (Nat.eqb_spec k k') as [->|Hne];
      [now apply bool_decide_eq_true | apply bool_decide_eq_false; congruence].
  - now rewrite lookup_insert_ne by congruence.
Qed.

Lemma owned_by_base s t k j :
  owned_by (mkShared t (owner s)) k j = owned_by s k j.
Proof. reflexivity. Qed.

#[export] Instance view_laws : TimerLaws View.
Proof.
  split; intros [s k]; cbn [fst snd set_interval clear_interval live issued view_api].
  - now rewrite set_interval_fresh.
  - intros j. rewrite owned_by_insert. cbn [base].
    rewrite set_interval_live.
    destruct (Pos.eqb_spec j (set_interval (base s)).1); cbn;
      [now rewrite Nat.eqb_refl | reflexivity].
  - intros j. rewrite owned_by_insert. cbn [base].
    rewrite set_interval_issued.
    destruct (Pos.eqb_spec j (set_interval (base s)).1); cbn;
      [now rewrite Nat.eqb_refl | reflexivity].
  - intros i j. rewrite owned_by_base. cbn [base]. rewrite clear_interval_live. now rewrite andb_assoc.
  - intros i j. rewrite owned_by_base. cbn [base]. now rewrite clear_interval_issued.
  - intros j [Hl Ho]%andb_prop. now rewrite (live_issued _ _ Hl), Ho.
Qed.

(** ** What one instance's footprint does to the others *)

(** Every owned id was issued, and every live interval is owned. *)
Definition shared_ok (s : Shared) : Prop :=
  (forall j k, owner s !! j = Some k -> issued (base s) j = true)
  /\ (forall j, live (base s) j = true -> is_Some (owner s !! j)).

(** [s'] is [s] after timer calls of instance [k] only. *)
Record grows (s s' : Shared) (k : nat) : Prop := {
  gr_ok : shared_ok s';
  gr_owner_keep : forall j k', owner s !! j = Some k' -> owner s' !! j = Some k';
  gr_owner_new : forall j k', owner s' !! j = Some k' -> owner s !! j = Some k' \/ k' = k;
  gr_other : forall k' j, k' <> k ->
    live ((s', k') : View) j = live ((s, k') : View) j
    /\ issued ((s', k') : View) j = issued ((s, k') : View) j
}.

Lemma owned_by_spec s k j : owned_by s k j = true <-> owner s !! j = Some k.
Proof. apply bool_decide_eq_true. Qed.

Lemma owned_by_other s k k' j : owner s !! j = Some k -> k' <> k -> owned_by s k' j = false.
Proof. intros Ho Hne. apply bool_decide_eq_false. congruence. Qed.

Lemma grows_refl s k : shared_ok s -> grows s s k.
Proof. intros Hok. constructor; auto. Qed.

Lemma grows_clear s s' k i :
  grows s s' k -> owner s !! i = Some k ->
  grows s (mkShared (clear_interval i (base s')) (owner s')) k.
Proof.
  intros [[Hiss Hown] Hkeep Hnew Hoth] Hi. constructor; cbn [base owner]; auto.
  - split; cbn [base owner].
    + intros j k' Hj. rewrite clear_interval_issued. eauto.
    + intros j Hl. rewrite clear_interval_live in Hl. apply andb_prop in Hl as [_ Hl]. auto.
  - intros k' j Hne. specialize (Hoth k' j Hne). cbn [fst snd live issued view_api base] in *.
    rewrite owned_by_base, clear_interval_issued, clear_interval_live.
    destruct (Pos.eqb_spec j i) as [->|]; [|exact Hoth].
    rewrite (owned_by_other s k), (owned_by_other s' k) by auto.
    now rewrite !andb_false_r.
Qed.

Lemma grows_set s s' k :
  grows s s' k ->
  grows s (mkShared (set_interval (base s')).2
                    (<[(set_interval (base s')).1 := k]> (owner s'))) k.
Proof.
  intros [[Hiss Hown] Hkeep Hnew Hoth]. remember ((set_interval (base s')).1) as id eqn:Hid.
  assert (Hfresh : issued (base s') id = false) by (rewrite Hid; apply set_interval_fresh).
  assert (Hnot : forall j k', owner s' !! j = Some k' -> j <> id)
    by (intros j k' Hj ->; rewrite (Hiss _ _ Hj) in Hfresh; discriminate).
  constructor; cbn [base owner].
  - split; cbn [base owner].
    + intros j k' Hj. rewrite set_interval_issued. rewrite <- Hid.
      destruct (Pos.eqb_spec j id); [reflexivity|]. rewrite lookup_insert_ne in Hj by congruence.
      rewrite (Hiss _ _ Hj). apply orb_true_r.
    + intros j Hl. rewrite set_interval_live in Hl. rewrite <- Hid in Hl.
      destruct (Pos.eqb_spec j id) as [Heq|Hne]; [subst j; now rewrite lookup_insert_eq|].
      rewrite lookup_insert_ne by congruence. auto.
  - intros j k' Hj. pose proof (Hkeep j k' Hj) as Hj'.
    rewrite lookup_insert_ne by (eapply not_eq_sym, Hnot; eauto). exact Hj'.
  - intros j k' Hj. destruct (Pos.eqb_spec j id) as [Heq|Hne].
    + subst j. rewrite lookup_insert_eq in Hj. right. congruence.
    + rewrite lookup_insert_ne in Hj by congruence. auto.
  - intros k' j Hne. specialize (Hoth k' j Hne). cbn [fst snd live issued view_api base] in *.
    rewrite owned_by_insert, set_interval_live, set_interval_issued. rewrite <- Hid.
    destruct (Pos.eqb_spec j id) as [Heq|]; [subst j|exact Hoth]. cbn.
    destruct (Nat.eqb_spec k k'); [congruence|].
    destruct (owner s !! id) as [k''|] eqn:Ho.
    + exfalso. exact (Hnot id k'' (Hkeep _ _ Ho) eq_refl).
    + unfold owned_by. rewrite Ho. now rewrite bool_decide_eq_false_2, !andb_false_r.
Qed.

(** The footprint of instance [k] on its view changes the table only as
    [grows] allows. *)
Lemma footprint_grows s k v :
  shared_ok s -> footprint ((s, k) : View) v -> v.2 = k /\ grows s v.1 k.
Proof.
  intros Hok Hf. induction Hf as [|i v Hf [Hk IH] Hi|v Hf [Hk IH]].
  - split; [reflexivity | now apply grows_refl].
  - destruct v as [s' k']. cbn in Hk, IH |- *. subst k'. split; [reflexivity|].
    apply grows_clear; [exact IH|]. cbn in Hi. apply andb_prop in Hi as [_ Hi].
    now apply owned_by_spec.
  - destruct v as [s' k']. cbn in Hk, IH |- *. subst k'. split; [reflexivity|].
    now apply grows_set.
Qed.

End View.

Arguments Shared T : clear implicits.
Arguments View T : clear implicits.

(** ** The page *)

Section Page.
Context {T : Type} `{TimerLaws T}.

Record Page := mkPage { shared : Shared T; insts : list (Fiber (View T)) }.

(** Instance [k] of [P], with the current table. *)
Definition refresh (P : Page) (k : nat) (f : Fiber (View T)) : Fiber (View T) :=
  mkFiber (hooks f) (screen f) (deps f) (cleanup_id f) (mounted f) ((shared P, k) : View T).

Inductive PEvent :=
| PMount
| PClick (k : nat) (b : Button)
| PTick (id : positive)
| PUnmount (k : nat).

(** An event of instance [k]: the table it leaves is the page's. *)
Definition on_inst (P : Page) (k : nat) (e : Event) : option Page :=
  match insts P !! k with
  | Some f =>
      match dispatch (refresh P k f) e with
      | Some f' => Some (mkPage (timers f').1 (<[k := f']> (insts P)))
      | None => None
      end
  | None => None
  end.

Definition page_step (P : Page) (e : PEvent) : option Page :=
  match e with
  | PMount =>
      let f := mount ((shared P, List.length (insts P)) : View T) in
      Some (mkPage (timers f).1 (insts P ++ [f]))
  | PClick k b => on_inst P k (Click b)
  | PTick i => match owner (shared P) !! i with Some k => on_inst P k (Tick i) | None => None end
  | PUnmount k => on_inst P k Unmount
  end.

Fixpoint run_page (P : Page) (es : list PEvent) : option Page :=
  match es with
  | [] => Some P
  | e :: rest => match page_step P e with Some P' => run_page P' rest | None => None end
  end.

(** The instance an event belongs to. *)
Definition target (P : Page) (e : PEvent) : option nat :=
  match e with
  | PMount => None
  | PClick k _ | PUnmount k => Some k
  | PTick i => owner (shared P) !! i
  end.

Definition page_init (t : T) : Page := mkPage (mkShared t ∅) [].

Inductive page_reachable : Page -> Prop :=
| preach_init t : (forall j, live t j = false) -> page_reachable (page_init t)
| preach_step P e P' : page_reachable P -> page_step P e = Some P' -> page_reachable P'.

(** ** The page invariant *)

Record page_ok (P : Page) : Prop := {
  pg_shared : shared_ok (shared P);
  pg_range : forall j k, owner (shared P) !! j = Some k -> (k < List.length (insts P))%nat;
  pg_inv : forall k f, insts P !! k = Some f -> mounted f = true -> inv (refresh P k f);
  pg_dead : forall k f j, insts P !! k = Some f -> mounted f = false ->
    running (hooks f) = false -> live ((shared P, k) : View T) j = false
}.

(** [inv] reads the table only through [live] and [issued]. *)
Lemma inv_retable (f : Fiber (View T)) (t : View T) :
  inv f -> (forall j, live t j = live (timers f) j) -> (forall j, issued t j = issued (timers f) j) ->
  inv (mkFiber (hooks f) (screen f) (deps f) (cleanup_id f) (mounted f) t).
Proof.
  intros [Hd Ht Hs Hiss Hl Hr Hc Hci] El Ei.
  constructor; cbn [hooks screen deps cleanup_id timers]; auto.
  - intros i Hi. rewrite Ei. auto.
  - intros j. rewrite El. apply Hl.
  - destruct (running (hooks f)); [intros c Hc'; rewrite El; auto | exact Hc].
  - intros c Hc'. rewrite Ei. auto.
Qed.

Lemma refresh_self P k f : timers f = ((shared P, k) : View T) -> refresh P k f = f.
Proof. destruct f as [h s d c m t]. cbn. now intros ->. Qed.

Lemma on_inst_spec P k e P' :
  page_ok P -> on_inst P k e = Some P' ->
  exists f f', insts P !! k = Some f /\ dispatch (refresh P k f) e = Some f'
    /\ P' = mkPage (timers f').1 (<[k := f']> (insts P))
    /\ (timers f').2 = k /\ grows (shared P) (timers f').1 k.
Proof.
  intros Hok Hs. unfold on_inst in Hs.
  destruct (insts P !! k) as [f|] eqn:Hf; [|discriminate].
  destruct (dispatch (refresh P k f) e) as [f'|] eqn:Hd; [|discriminate].
  injection Hs as <-. exists f, f'. do 3 (split; [reflexivity || assumption|]).
  destruct (mounted f) eqn:Hm.
  - apply footprint_grows; [apply (pg_shared P Hok)|].
    exact (footprint_dispatch _ e f' (pg_inv P Hok k f Hf Hm) Hd).
  - rewrite (dispatch_unmounted (refresh P k f) e f' Hm Hd). split; [reflexivity|].
    apply grows_refl, (pg_shared P Hok).
Qed.

Lemma page_ok_init t : (forall j, live t j = false) -> page_ok (page_init t).
Proof.
  intros Hq. constructor; cbn [shared insts page_init owner base].
  - split; cbn [owner base]; [intros j k Hj; now rewrite lookup_empty in Hj | intros j Hj; now rewrite Hq in Hj].
  - intros j k Hj. now rewrite lookup_empty in Hj.
  - intros k f Hf. now rewrite lookup_nil in Hf.
  - intros k f j Hf. now rewrite lookup_nil in Hf.
Qed.

(** A new instance sees no interval of its own. *)
Lemma mount_fresh P :
  page_ok P -> forall j, live ((shared P, List.length (insts P)) : View T) j = false.
Proof.
  intros Hok j. cbn [live view_api fst snd].
  destruct (owned_by (shared P) (List.length (insts P)) j) eqn:Ho; [|apply andb_false_r].
  apply owned_by_spec, (pg_range P Hok) in Ho. lia.
Qed.

Lemma page_ok_mount P :
  page_ok P -> page_ok (mkPage (shared P) (insts P ++ [mount ((shared P, List.length (insts P)) : View T)])).
Proof.
  intros Hok. constructor; cbn [shared insts].
  - apply (pg_shared P Hok).
  - intros j k Hj. rewrite List.length_app. cbn. pose proof (pg_range P Hok j k Hj). lia.
  - intros k f Hf Hm. apply lookup_app_Some in Hf as [Hk | [Hlen Hk]].
    + exact (pg_inv P Hok k f Hk Hm).
    + apply list_lookup_singleton_Some in Hk as [Hk <-].
      replace k with (List.length (insts P)) by lia.
      rewrite refresh_self by reflexivity. apply inv_mount, mount_fresh, Hok.
  - intros k f j Hf Hm. apply lookup_app_Some in Hf as [Hk | [Hlen Hk]].
    + exact (pg_dead P Hok k f j Hk Hm).
    + apply list_lookup_singleton_Some in Hk as [_ <-]. discriminate.
Qed.

(** Unmounting a stopped instance leaves it no live interval. *)
Lemma dispatch_unmount_dead (f : Fiber (View T)) e f' j :
  inv f -> mounted f = true -> dispatch f e = Some f' -> mounted f' = false ->
  running (hooks f') = false -> live (timers f') j = false.
Proof.
  intros Hi Hm Hd Hm' Hr. unfold dispatch in Hd. rewrite Hm in Hd.
  destruct e as [b|i|]; [destruct (button_disabled _ _) | destruct (live _ _) |];
    try discriminate; injection Hd as <-; rewrite ?mounted_commit in Hm'; try congruence.
  cbn [unmount timers hooks] in Hr |- *.
  destruct (live (effect_cleanup _ _) j) eqn:Hl; [|reflexivity].
  apply effect_cleanup_cleared in Hl as [_ Hl]. apply (inv_live f Hi) in Hl as [Hl _]. congruence.
Qed.

Lemma page_ok_on_inst P k e P' : page_ok P -> on_inst P k e = Some P' -> page_ok P'.
Proof.
  intros Hok Hs. destruct (on_inst_spec P k e P' Hok Hs) as (f & f' & Hf & Hd & -> & Hk & Hg).
  pose proof (lookup_lt_Some _ _ _ Hf) as Hlt.
  constructor; cbn [shared insts]; rewrite ?length_insert.
  - apply (gr_ok _ _ _ Hg).
  - intros j k' Hj. destruct (gr_owner_new _ _ _ Hg j k' Hj) as [Ho | ->]; [|exact Hlt].
    exact (pg_range P Hok j k' Ho).
  - intros k' g Hg' Hm. destruct (decide (k' = k)) as [->|Hne].
    + rewrite list_lookup_insert_eq in Hg' by exact Hlt. injection Hg' as <-.
      rewrite refresh_self by (destruct (timers f'); cbn in *; congruence).
      destruct (mounted f) eqn:Hmf.
      * exact (inv_dispatch _ e f' (pg_inv P Hok k f Hf Hmf) Hmf Hd Hm).
      * rewrite (dispatch_unmounted (refresh P k f) e f' Hmf Hd) in Hm. cbn in Hm. congruence.
    + rewrite list_lookup_insert_ne in Hg' by congruence.
      pose proof (pg_inv P Hok k' g Hg' Hm) as Hi.
      apply (inv_retable _ _ Hi); intros j; cbn [timers refresh];
        apply (gr_other _ _ _ Hg k' j Hne).
  - intros k' g j Hg' Hm Hr. destruct (decide (k' = k)) as [->|Hne].
    + rewrite list_lookup_insert_eq in Hg' by exact Hlt. injection Hg' as <-.
      replace ((timers f').1, k) with (timers f') by (destruct (timers f'); cbn in *; congruence).
      destruct (mounted f) eqn:Hmf.
      * exact (dispatch_unmount_dead _ e f' j (pg_inv P Hok k f Hf Hmf) Hmf Hd Hm Hr).
      * rewrite (dispatch_unmounted (refresh P k f) e f' Hmf Hd) in Hr |- *.
        exact (pg_dead P Hok k f j Hf Hmf Hr).
    + rewrite list_lookup_insert_ne in Hg' by congruence.
      rewrite (proj1 (gr_other _ _ _ Hg k' j Hne)). exact (pg_dead P Hok k' g j Hg' Hm Hr).
Qed.

Lemma page_ok_step P e P' : page_ok P -> page_step P e = Some P' -> page_ok P'.
Proof.
  intros Hok Hs. destruct e as [|k b|i|k]; cbn [page_step] in Hs.
  - injection Hs as <-. exact (page_ok_mount P Hok).
  - exact (page_ok_on_inst P k _ P' Hok Hs).
  - destruct (owner (shared P) !! i); [exact (page_ok_on_inst P _ _ P' Hok Hs) | discriminate].
  - exact (page_ok_on_inst P k _ P' Hok Hs).
Qed.

Lemma page_reachable_ok P : page_reachable P -> page_ok P.
Proof.
  induction 1 as [t Hq | P e P' _ IH Hs]; [now apply page_ok_init | exact (page_ok_step P e P' IH Hs)].
Qed.

Lemma page_reachable_run P es P' : page_reachable P -> run_page P es = Some P' -> page_reachable P'.
Proof.
  revert P; induction es as [|e es IH]; intros P Hr Hrun; cbn in Hrun; [now injection Hrun as <-|].
  destruct (page_step P e) as [Q|] eqn:Hs; [|discriminate].
  exact (IH Q (preach_step P e Q Hr Hs) Hrun).
Qed.

(** The other instances under an event of instance [k]. *)
Lemma on_inst_other P k e P' k' :
  page_ok P -> on_inst P k e = Some P' -> k' <> k ->
  insts P' !! k' = insts P !! k'
  /\ forall j, live ((shared P', k') : View T) j = live ((shared P, k') : View T) j
           /\ issued ((shared P', k') : View T) j = issued ((shared P, k') : View T) j.
Proof.
  intros Hok Hs Hne. destruct (on_inst_spec P k e P' Hok Hs) as (f & f' & _ & _ & -> & _ & Hg).
  cbn [insts shared]. split; [now rewrite list_lookup_insert_ne by congruence|].
  intros j. exact (gr_other _ _ _ Hg k' j Hne).
Qed.

(** C6: No cross-instance sharing (spec section 5): an event of one
    instance, or the mounting of a new one, leaves every other instance
    of the page as it was, and the intervals it sees (live and issued)
    unchanged. *)
Theorem page_isolation P e P' k' :
  page_reachable P -> page_step P e = Some P' -> target P e <> Some k' ->
  (k' < List.length (insts P))%nat ->
  insts P' !! k' = insts P !! k'
  /\ forall j, live ((shared P', k') : View T) j = live ((shared P, k') : View T) j
           /\ issued ((shared P', k') : View T) j = issued ((shared P, k') : View T) j.
Proof.
  intros Hr Hs Ht Hlt. pose proof (page_reachable_ok P Hr) as Hok.
  destruct e as [|k b|i|k]; cbn [page_step target] in Hs, Ht.
  - injection Hs as <-. cbn [insts shared]. split; [|easy]. now apply lookup_app_l.
  - apply (on_inst_other P k _ P' k' Hok Hs). congruence.
  - destruct (owner (shared P) !! i) as [k|]; [|discriminate].
    apply (on_inst_other P k _ P' k' Hok Hs). congruence.
  - apply (on_inst_other P k _ P' k' Hok Hs). congruence.
Qed.

(** C5: Every live interval of the page was created by one instance whose
    last state is running; if that instance is still mounted it is its
    current [intervalId].  So a page runs at most one interval per
    mounted instance, plus one for each instance unmounted while
    running, and none for an instance unmounted while stopped. *)
Theorem page_intervals P j :
  page_reachable P -> live (base (shared P)) j = true ->
  exists k f, owner (shared P) !! j = Some k /\ insts P !! k = Some f
    /\ running (hooks f) = true
    /\ (mounted f = true -> intervalId (hooks f) = Some j).
Proof.
  intros Hr Hl. pose proof (page_reachable_ok P Hr) as Hok.
  destruct (proj2 (pg_shared P Hok) j Hl) as [k Ho].
  destruct (lookup_lt_is_Some_2 (insts P) k (pg_range P Hok j k Ho)) as [f Hf].
  assert (Hv : live ((shared P, k) : View T) j = true)
    by (cbn; rewrite Hl; now apply owned_by_spec).
  exists k, f. split; [exact Ho|]. split; [exact Hf|].
  destruct (mounted f) eqn:Hm.
  - apply (inv_live _ (pg_inv P Hok k f Hf Hm)) in Hv as [Hrun Hid]. auto.
  - split; [|discriminate]. destruct (running (hooks f)) eqn:Hrun; [reflexivity|].
    now rewrite (pg_dead P Hok k f j Hf Hm Hrun) in Hv.
Qed.

(** An unmounted instance stays unmounted, and its view of the table does
    not change, whatever the page does. *)
Lemma on_inst_unmounted P k0 e P' k g :
  page_ok P -> on_inst P k0 e = Some P' -> insts P !! k = Some g -> mounted g = false ->
  exists g', insts P' !! k = Some g' /\ mounted g' = false
    /\ forall j, live ((shared P', k) : View T) j = live ((shared P, k) : View T) j.
Proof.
  intros Hok Hs Hg Hm. destruct (decide (k0 = k)) as [->|Hne].
  - destruct (on_inst_spec P k e P' Hok Hs) as (f & f' & Hf & Hd & -> & _ & _).
    rewrite Hg in Hf. injection Hf as <-.
    rewrite (dispatch_unmounted (refresh P k g) e f' Hm Hd).
    exists (refresh P k g). cbn [insts shared timers refresh fst].
    rewrite list_lookup_insert_eq by exact (lookup_lt_Some _ _ _ Hg). auto.
  - destruct (on_inst_other P k0 e P' k Hok Hs ltac:(congruence)) as [Hl Hv].
    exists g. rewrite Hl. split; [exact Hg|]. split; [exact Hm|]. intros j. apply Hv.
Qed.

Lemma page_step_unmounted P e P' k g :
  page_ok P -> page_step P e = Some P' -> insts P !! k = Some g -> mounted g = false ->
  exists g', insts P' !! k = Some g' /\ mounted g' = false
    /\ forall j, live ((shared P', k) : View T) j = live ((shared P, k) : View T) j.
Proof.
  intros Hok Hs Hg Hm. destruct e as [|k0 b|i|k0]; cbn [page_step] in Hs.
  - injection Hs as <-. exists g. cbn [insts shared]. rewrite (lookup_app_l_Some _ _ _ _ Hg). auto.
  - exact (on_inst_unmounted P k0 _ P' k g Hok Hs Hg Hm).
  - destruct (owner (shared P) !! i) as [k0|]; [|discriminate].
    exact (on_inst_unmounted P k0 _ P' k g Hok Hs Hg Hm).
  - exact (on_inst_unmounted P k0 _ P' k g Hok Hs Hg Hm).
Qed.

Lemma run_page_unmounted P es P'' k g i :
  page_reachable P -> run_page P es = Some P'' -> insts P !! k = Some g -> mounted g = false ->
  live ((shared P, k) : View T) i = true -> live ((shared P'', k) : View T) i = true.
Proof.
  revert P g; induction es as [|e es IH]; intros P g Hr Hrun Hg Hm Hl; cbn in Hrun.
  - now injection Hrun as <-.
  - destruct (page_step P e) as [Q|] eqn:Hs; [|discriminate].
    destruct (page_step_unmounted P e Q k g (page_reachable_ok P Hr) Hs Hg Hm) as (g' & Hg' & Hm' & Hv).
    apply (IH Q g' (preach_step P e Q Hr Hs) Hrun Hg' Hm'). now rewrite Hv.
Qed.

(** C7: Unmounting an instance while it runs leaves its interval live for
    good: no sequence of later events on the page (other instances'
    clicks, ticks, mounts and unmounts, or events of the unmounted
    instance) ever clears it, since only the instance that created an
    interval clears it. *)
Theorem page_leak_permanent P k f :
  page_reachable P -> insts P !! k = Some f -> mounted f = true -> running (hooks f) = true ->
  exists P' i, page_step P (PUnmount k) = Some P' /\ owner (shared P') !! i = Some k
    /\ forall es P'', run_page P' es = Some P'' -> live (base (shared P'')) i = true.
Proof.
  intros Hr Hf Hm Hrun. pose proof (page_reachable_ok P Hr) as Hok.
  pose proof (pg_inv P Hok k f Hf Hm) as Hi.
  destruct (inv_running_id _ Hi Hrun) as [i Hid].
  assert (Hl : live (timers (refresh P k f)) i = true) by (apply (inv_live _ Hi); auto).
  set (f' := unmount (refresh P k f)).
  assert (Hs : page_step P (PUnmount k) = Some (mkPage (timers f').1 (<[k := f']> (insts P))))
    by (cbn [page_step]; unfold on_inst; rewrite Hf; unfold dispatch; cbn [mounted refresh]; now rewrite Hm).
  assert (Hl' : live (timers f') i = true)
    by (unfold f'; cbn [unmount timers];
        rewrite effect_cleanup_dead by (intros c; apply inv_cleanup_dead, Hi); exact Hl).
  assert (Hk : (timers f').2 = k)
    by (unfold f'; cbn [unmount timers]; now destruct (cleanup_id (refresh P k f))).
  assert (Hv : live (((timers f').1, k) : View T) i = true)
    by (rewrite <- Hk; now destruct (timers f')).
  exists (mkPage (timers f').1 (<[k := f']> (insts P))), i. split; [exact Hs|].
  split; [cbn in Hv; apply andb_prop in Hv as [_ Hv]; now apply owned_by_spec|].
  intros es P'' Hrun'.
  assert (Hlive : live ((shared P'', k) : View T) i = true).
  { apply (run_page_unmounted _ es P'' k f' i (preach_step P _ _ Hr Hs) Hrun'); [|reflexivity|exact Hv].
    cbn [insts]. apply list_lookup_insert_eq, (lookup_lt_Some _ _ _ Hf). }
  cbn in Hlive. now apply andb_prop in Hlive as [Hlive _].
Qed.

End Page.

Arguments Page T : clear implicits.

(** ** Unmounting a running instance and mounting a new one *)

Definition remount_script : list PEvent :=
  [PMount; PClick 0 Start; PUnmount 0; PMount; PClick 1 Start].

Definition demo_page : Page Browser :=
  match run_page (page_init browser_init) remount_script with
  | Some P => P
  | None => page_init browser_init
  end.

Lemma demo_page_reachable : page_reachable demo_page.
Proof.
  apply (page_reachable_run (page_init browser_init) remount_script);
    [exact (preach_init browser_init browser_init_quiet) | vm_compute; reflexivity].
Qed.

Definition demo_page_tick : Page Browser :=
  match page_step demo_page (PTick 1) with Some P => P | None => demo_page end.

Lemma page_isolation_witness :
  insts demo_page_tick !! 1%nat = insts demo_page !! 1%nat
  /\ forall j, live ((shared demo_page_tick, 1%nat) : View Browser) j
               = live ((shared demo_page, 1%nat) : View Browser) j
           /\ issued ((shared demo_page_tick, 1%nat) : View Browser) j
               = issued ((shared demo_page, 1%nat) : View Browser) j.
Proof.
  apply (page_isolation demo_page (PTick 1) demo_page_tick 1);
    [exact demo_page_reachable | vm_compute; reflexivity | vm_compute; discriminate
    | vm_compute; lia].
Defined.

Lemma page_intervals_witness :
  exists k f, owner (shared demo_page) !! 1%positive = Some k /\ insts demo_page !! k = Some f
    /\ running (hooks f) = true
    /\ (mounted f = true -> intervalId (hooks f) = Some 1%positive).
Proof.
  apply (page_intervals demo_page 1); [exact demo_page_reachable | vm_compute; reflexivity].
Defined.


Definition demo_page0 : Page Browser :=
  match run_page (page_init browser_init) [PMount; PClick 0 Start] with
  | Some P => P
  | None => page_init browser_init
  end.

Definition demo_inst0 : Fiber (View Browser) :=
  match insts demo_page0 !! 0%nat with Some f => f | None => mount ((shared demo_page0, 0%nat) : View Browser) end.

Lemma page_leak_permanent_witness :
  exists P' i, page_step demo_page0 (PUnmount 0) = Some P' /\ owner (shared P') !! i = Some 0%nat
    /\ forall es P'', run_page P' es = Some P'' -> live (base (shared P'')) i = true.
Proof.
  apply (page_leak_permanent demo_page0 0 demo_inst0);
    [apply (page_reachable_run (page_init browser_init) [PMount; PClick 0 Start]);
       [exact (preach_init browser_init browser_init_quiet) | vm_compute; reflexivity]
    | vm_compute; reflexivity | vm_compute; reflexivity | vm_compute; reflexivity].
Defined.
